(** * gen-ui-info: a shallow embedding of [build-scripts/gen-ui-info.py]

    The script reads a linker map file and the C sources of the firmware,
    extracts the position and length of every [kbfun_*] function and of the
    three layout matrices, collects the structured comments that document
    the functions, and merges everything into one nested dictionary.

    Python values are embedded as follows.
    - [str] is [string]; a character is a code point below 256, so that the
      Unicode notion of white space used by [str.strip] and by [\s] is the
      twelve code points listed in [isspace].
    - [int] is [Z] (Python integers are unbounded).
    - a [dict] with string keys is a [gmap string _]: Python compares
      dictionaries without regard to insertion order, and the script prints
      them with sorted keys.
    - an exception is a value of [exn]; a computation that may raise
      returns a [result].
    - a file object is the list of the lines not yet read; [next(f)] takes
      the head, and raises [StopIteration] on the empty list.

    The definitions come first: the primitives of Python that the script
    uses ([Py], [Re]), the values, then the functions of the script under
    their names ([dict_merge], [gen_derived], and the modules [MapFile] and
    [SourceCode] for [parse_mapfile] and [parse_source_code] with their
    local functions), then the notions that the statements need.  The
    properties follow, one section for each part of the script. *)

From Stdlib Require Import ZArith Ascii String List Lia Permutation.
From stdpp Require Import base option gmap strings list fin_maps.

Local Open Scope string_scope.
Local Open Scope Z_scope.

(** ** Python primitives *)

Module Py.

(** *** Exceptions *)

Inductive exn : Type :=
  | AttributeError      (* [None.group(1)], [None.strip()] *)
  | ValueError          (* [int(s, 16)] on a malformed literal *)
  | StopIteration       (* [next(f)] at the end of the file *)
  | KeyError (key : string)
  | IndexError          (* [m.group(i)] when the pattern has no group [i] *)
  | TypeError
  | OverflowError       (* int / int too large for a float *)
  | ZeroDivisionError
  | Exception (msg : string)
  | OutOfFuel.          (* not a Python exception: the loop bound of the
                           embedding was too small (shown unreachable) *)

Inductive result (A : Type) : Type :=
  | Ok (a : A)
  | Raise (e : exn).
Arguments Ok {A} a.
Arguments Raise {A} e.

#[global] Instance result_ret : MRet result := fun A a => Ok a.
#[global] Instance result_bind : MBind result := fun A B k m =>
  match m with
  | Ok a => k a
  | Raise e => Raise e
  end.

(** *** Strings *)

(** [c.isspace()], also the class [\s] of a [str] pattern. *)
Definition isspace (c : ascii) : bool :=
  let n := N_of_ascii c in
  ((9 <=? n) && (n <=? 13) || (28 <=? n) && (n <=? 32)
   || (n =? 133) || (n =? 160))%N.

Definition newline : ascii := "010"%char.
Definition nl : string := String newline "".

Fixpoint lstrip (s : string) : string :=
  match s with
  | String c s' => if isspace c then lstrip s' else s
  | "" => ""
  end.

Fixpoint rstrip (s : string) : string :=
  match s with
  | "" => ""
  | String c s' =>
      match rstrip s' with
      | "" => if isspace c then "" else String c ""
      | r => String c r
      end
  end.

(** [s.strip()] *)
Definition strip (s : string) : string := rstrip (lstrip s).

(** [s.split('\n')] *)
Fixpoint split_nl (s : string) : list string :=
  match s with
  | "" => [""]
  | String c s' =>
      if Ascii.eqb c newline then "" :: split_nl s'
      else match split_nl s' with
           | h :: t => String c h :: t
           | [] => [String c ""]
           end
  end.

(** [s[n:]] *)
Fixpoint drop_chars (n : nat) (s : string) : string :=
  match n, s with
  | S n', String _ s' => drop_chars n' s'
  | _, _ => s
  end.

(** [s[:-1]] *)
Fixpoint drop_last (s : string) : string :=
  match s with
  | "" => ""
  | String c s' => match s' with "" => "" | _ => String c (drop_last s') end
  end.

(** [s[-1]], when [s] is not empty *)
Fixpoint last_char (s : string) : option ascii :=
  match s with
  | "" => None
  | String c s' => match s' with "" => Some c | _ => last_char s' end
  end.

(** [s[-2:]] *)
Definition last_two (s : string) : string :=
  drop_chars (String.length s - 2) s.

(** [''.join(ls)] *)
Definition join (ls : list string) : string :=
  fold_right String.append "" ls.

(** *** [int(s, 16)]

    White space around the literal is ignored; then come an optional sign,
    an optional [0x] or [0X] prefix which may be followed by one underscore,
    and hexadecimal digits, of which there is at least one, with single
    underscores allowed between two digits. *)

Definition hex_digit (c : ascii) : option Z :=
  let n := Z.of_N (N_of_ascii c) in
  if (48 <=? n) && (n <=? 57) then Some (n - 48)
  else if (97 <=? n) && (n <=? 102) then Some (n - 87)
  else if (65 <=? n) && (n <=? 70) then Some (n - 55)
  else None.

Fixpoint hex_digits (s : string) (after_underscore : bool) (acc : Z)
  : option Z :=
  match s with
  | "" => if after_underscore then None else Some acc
  | String c s' =>
      if Ascii.eqb c "_" then
        if after_underscore then None else hex_digits s' true acc
      else match hex_digit c with
           | Some d => hex_digits s' false (16 * acc + d)
           | None => None
           end
  end.

Definition hex_body (s : string) : option Z :=
  let s := match s with
           | String "0" (String "x" s') | String "0" (String "X" s') =>
               match s' with String "_" s'' => s'' | _ => s' end
           | _ => s
           end in
  match s with
  | String c s' =>
      match hex_digit c with
      | Some d => hex_digits s' false d
      | None => None
      end
  | "" => None
  end.

Definition int16 (s : string) : result Z :=
  let s := strip s in
  let '(neg, s) := match s with
                   | String "-" s' => (true, s')
                   | String "+" s' => (false, s')
                   | _ => (false, s)
                   end in
  match hex_body s with
  | Some n => Ok (if neg : bool then - n else n)
  | None => Raise ValueError
  end.

(** *** [int(a / b)] for integers [a] and [b]

    [a / b] is the binary64 number nearest to the exact quotient (ties to
    even); [int] then drops the fractional part.  [rne n d] rounds the
    quotient of two positive integers to the nearest integer.  The
    significand [m] below has 53 bits; a quotient in the subnormal range
    would have fewer, but it is far below one and [int] sends it to zero
    either way. *)

Definition rne (n d : Z) : Z :=
  let q := n / d in
  let r := n mod d in
  if 2 * r <? d then q
  else if d <? 2 * r then q + 1
  else if Z.even q then q else q + 1.

(** [floor (log2 (a / b))] for positive [a], [b] *)
Definition quot_log2 (a b : Z) : Z :=
  let d := Z.log2 a - Z.log2 b in
  if b * 2 ^ Z.max 0 d <=? a * 2 ^ Z.max 0 (- d) then d else d - 1.

Definition int_truediv_pos (a b : Z) : result Z :=
  let shift := quot_log2 a b - 52 in
  let m := if 0 <=? shift then rne a (b * 2 ^ shift)
           else rne (a * 2 ^ (- shift)) b in
  if 2 ^ 1024 <=? m * 2 ^ Z.max 0 shift then Raise OverflowError
  else Ok (if 0 <=? shift then m * 2 ^ shift else m / 2 ^ (- shift)).

Definition int_truediv (a b : Z) : result Z :=
  if b =? 0 then Raise ZeroDivisionError
  else if a =? 0 then Ok 0
  else
    q ← int_truediv_pos (Z.abs a) (Z.abs b);
    Ok (Z.sgn a * Z.sgn b * q).

End Py.

(** ** Regular expressions

    The subset of [re] the script uses: literal characters, the classes
    [\s], [\S] and [.], a class followed by [*] or [+] (greedy, with
    backtracking), the anchors [^] and [$], and groups that are not nested.
    A pattern is the list of its items; [(] and [)] are items of their
    own. *)

Module Re.
Import Py.

Inductive cclass : Type :=
  | Space                 (* \s *)
  | NonSpace              (* \S *)
  | Dot                   (* .  : anything but a newline *)
  | Chr (c : ascii).      (* a literal character *)

Definition in_class (cl : cclass) (c : ascii) : bool :=
  match cl with
  | Space => isspace c
  | NonSpace => negb (isspace c)
  | Dot => negb (Ascii.eqb c newline)
  | Chr a => Ascii.eqb a c
  end.

Inductive item : Type :=
  | One (cl : cclass)
  | Star (cl : cclass)
  | Plus (cl : cclass)
  | Bol                   (* ^ *)
  | Eol                   (* $ *)
  | Open                  (* ( *)
  | Close.                (* ) *)

Definition pattern : Type := list item.

(** The items of a literal string *)
Fixpoint lit (s : string) : pattern :=
  match s with
  | "" => []
  | String c s' => One (Chr c) :: lit s'
  end.

(** The text of the group being read, when a group is open *)
Definition push (cur : option string) (c : ascii) : option string :=
  match cur with
  | Some g => Some (g +:+ String c "")
  | None => None
  end.

(** A greedy run of characters of the class [cl], followed by what [k]
    matches; the longest run is tried first, then the shorter ones. [bol]
    tells whether [s] is the whole subject, and [cur] is the text read so
    far of the group that is open. *)
Fixpoint star (cl : cclass)
    (k : bool -> option string -> string -> option (list string))
    (bol : bool) (cur : option string) (s : string) {struct s}
  : option (list string) :=
  match s with
  | String c s' =>
      if in_class cl c then
        match star cl k false (push cur c) s' with
        | Some r => Some r
        | None => k bol cur s
        end
      else k bol cur s
  | "" => k bol cur s
  end.

(** [match_here p bol cur caps s] matches [p] at the front of [s] and gives
    the texts of the groups; [caps] are the groups already closed. *)
Fixpoint match_here (p : pattern) (bol : bool) (cur : option string)
    (caps : list string) (s : string) {struct p} : option (list string) :=
  match p with
  | [] => Some caps
  | One cl :: p' =>
      match s with
      | String c s' =>
          if in_class cl c then match_here p' false (push cur c) caps s'
          else None
      | "" => None
      end
  | Star cl :: p' =>
      star cl (fun bol cur s => match_here p' bol cur caps s) bol cur s
  | Plus cl :: p' =>
      match s with
      | String c s' =>
          if in_class cl c then
            star cl (fun bol cur s => match_here p' bol cur caps s)
              false (push cur c) s'
          else None
      | "" => None
      end
  | Bol :: p' => if bol then match_here p' bol cur caps s else None
  | Eol :: p' =>
      if String.eqb s "" || String.eqb s nl
      then match_here p' bol cur caps s else None
  | Open :: p' => match_here p' bol (Some "") caps s
  | Close :: p' =>
      match_here p' bol None (caps ++ [default "" cur]) s
  end.

Fixpoint search_from (p : pattern) (bol : bool) (s : string)
  : option (list string) :=
  match match_here p bol None [] s with
  | Some caps => Some caps
  | None =>
      match s with
      | "" => None
      | String _ s' => search_from p false s'
      end
  end.

(** [re.search(p, s)]: the groups of the leftmost match, [None] when there
    is no match. *)
Definition search (p : pattern) (s : string) : option (list string) :=
  search_from p true s.

(** [m.group(i)], for [i] from 1, where [m] is the result of a search *)
Definition group (m : option (list string)) (i : nat) : result string :=
  match m with
  | None => Raise AttributeError
  | Some caps =>
      match caps !! pred i with
      | Some g => Ok g
      | None => Raise IndexError
      end
  end.

End Re.

(** ** Values and [dict_merge] *)

#[warning="-register-all"]
Inductive pyobj : Type :=
  | PyNone
  | PyInt (n : Z)
  | PyStr (s : string)
  | PyList (l : list pyobj)
  | PyDict (d : gmap string pyobj).

Import Py.

(** [v[key]] *)
Definition subscript (v : pyobj) (key : string) : result pyobj :=
  match v with
  | PyDict d =>
      match d !! key with
      | Some x => Ok x
      | None => Raise (KeyError key)
      end
  | _ => Raise TypeError
  end.

(** [next(f)] *)
Definition next (f : list string) : result (string * list string) :=
  match f with
  | line :: f' => Ok (line, f')
  | [] => Raise StopIteration
  end.

(** [dict_merge(a, b)].  The loop runs over the items of [b] and updates
    [a]; the accumulator of the fold is the state of [a], and the result of
    the function is the dictionary that Python has updated in place.  The
    arguments are values: what matters to the callers is the content of [a]
    after the call, and the script passes a freshly built tree as [b] at
    every call, which it does not use again. *)
Fixpoint dict_merge (a b : pyobj) {struct b} : pyobj :=
  match a, b with
  | PyDict da, PyDict db =>
      PyDict (map_fold
               (fun key v (a : gmap string pyobj) =>
                  match a !! key with
                  | Some x => <[key := dict_merge x v]> a
                  | None => <[key := v]> a
                  end) da db)
  | _, _ => b
  end.

(** The number of dictionaries in a value, for induction on the nesting *)
Fixpoint vsize (v : pyobj) : nat :=
  match v with
  | PyDict d => S (map_fold (fun _ x n => vsize x + n)%nat O d)
  | _ => O
  end.

(** ** [gen_derived] *)

Definition gen_derived (data : pyobj) : result pyobj :=
  matrices ← subscript data "layout-matrices";
  layout ← subscript matrices "_kb_layout";
  len ← subscript layout "length";
  layers ← match len with
            | PyInt n => int_truediv n (6 * 14)
            | _ => Raise TypeError
            end;
  Ok (PyDict {[ "miscellaneous" :=
                 PyDict {[ "number-of-layers" := PyInt layers ]} ]}).

(** ** [parse_mapfile]

    The argument is the content of the map file, as the list of its lines,
    each with its line terminator. *)

Module MapFile.
Import Re.

(** [(0x\S+)\s+(0x\S+)] *)
Definition re_position_length : pattern :=
  ([Open] ++ lit "0x" ++ [Plus NonSpace; Close; Plus Space; Open]
   ++ lit "0x" ++ [Plus NonSpace; Close])%list.

(** [0x\S+\s+(\S+)] *)
Definition re_name : pattern :=
  (lit "0x" ++ [Plus NonSpace; Plus Space; Open; Plus NonSpace; Close])%list.

(** [0x\S+\s+(0x\S+)] *)
Definition re_length : pattern :=
  (lit "0x" ++ [Plus NonSpace; Plus Space; Open] ++ lit "0x"
   ++ [Plus NonSpace; Close])%list.

(** [(0x\S+)\s+] followed by the name of a matrix and a newline *)
Definition re_matrix (name : string) : pattern :=
  ([Open] ++ lit "0x" ++ [Plus NonSpace; Close; Plus Space]
   ++ lit name ++ lit nl)%list.

(** [^\s*\.text\.kbfun_] *)
Definition re_kbfun_trigger : pattern :=
  ([Bol; Star Space] ++ lit ".text.kbfun_")%list.

(** [^\s*\.progmem\.data.*layout] *)
Definition re_layout_trigger : pattern :=
  ([Bol; Star Space] ++ lit ".progmem.data" ++ [Star Dot]
   ++ lit "layout")%list.

Definition record (position length : Z) : pyobj :=
  PyDict {[ "position" := PyInt position; "length" := PyInt length ]}.

Definition parse_keyboard_function (f : list string) (line : string)
  : result (pyobj * list string) :=
  '(l1, f) ← next f;
  let search := search re_position_length l1 in
  g1 ← group search 1;
  position ← int16 g1;
  g2 ← group search 2;
  length ← int16 g2;
  '(l2, f) ← next f;
  let search := Re.search re_name l2 in
  name ← group search 1;
  Ok (PyDict {[ "keyboard-functions" :=
                 PyDict {[ name := record position length ]} ]}, f).

Definition not_all_found : string :=
  "parse_mapfile: not all layout matrices were found".

Definition parse_layout_matrices (f : list string) (line : string)
  : result (pyobj * list string) :=
  let search := search re_length line in
  g ← group search 1;
  n ← int16 g;
  base_length ← int_truediv n 5;
  '(l1, f) ← next f;
  '(l2, f) ← next f;
  '(l3, f) ← next f;
  let next_lines := join [l1; l2; l3] in
  layout_position ←
    group (Re.search (re_matrix "_kb_layout") next_lines) 1;
  layout_press_position ←
    group (Re.search (re_matrix "_kb_layout_press") next_lines) 1;
  layout_release_position ←
    group (Re.search (re_matrix "_kb_layout_release") next_lines) 1;
  layout_position ← int16 layout_position;
  layout_press_position ← int16 layout_press_position;
  layout_release_position ← int16 layout_release_position;
  if negb (negb (layout_position =? 0)
           && negb (layout_press_position =? 0)
           && negb (layout_release_position =? 0))
  then Raise (Exception not_all_found)
  else
    Ok (PyDict {[ "layout-matrices" :=
                   PyDict {[ "_kb_layout" :=
                              record layout_position base_length;
                            "_kb_layout_press" :=
                              record layout_press_position (base_length * 2);
                            "_kb_layout_release" :=
                              record layout_release_position
                                (base_length * 2) ]} ]}, f).

(** The loop [for line in f].  The helpers read further lines from the same
    file object, so the loop goes on from the lines they leave; [fuel]
    bounds the number of iterations.  At both calls of [dict_merge] the
    two arguments are dictionaries, so the dictionary that the call updates
    in place is the one it returns. *)
Fixpoint scan (fuel : nat) (f : list string) (output : pyobj)
  : result pyobj :=
  match f with
  | [] => Ok output
  | line :: f =>
      match fuel with
      | O => Raise OutOfFuel
      | S fuel =>
          if bool_decide (is_Some (search re_kbfun_trigger line)) then
            '(found, f) ← parse_keyboard_function f line;
            scan fuel f (dict_merge output found)
          else if bool_decide (is_Some (search re_layout_trigger line)) then
            '(found, f) ← parse_layout_matrices f line;
            scan fuel f (dict_merge output found)
          else scan fuel f output
      end
  end.

Definition parse_mapfile (lines : list string) : result pyobj :=
  scan (length lines) lines (PyDict ∅).

End MapFile.

(** ** [parse_source_code]

    The source tree is the list of its files in the order of [os.walk],
    each with its path and its lines. *)

Module SourceCode.
Import Re.

(** [^\[.*\]$] *)
Definition re_field : pattern :=
  [Bol; One (Chr "["); Star Dot; One (Chr "]"); Eol].

(** [void\s+kbfun_\S+\s*\(void\)] *)
Definition re_kbfun : pattern :=
  (lit "void" ++ [Plus Space] ++ lit "kbfun_"
   ++ [Plus NonSpace; Star Space] ++ lit "(void)")%list.

(** [void\s+(kbfun_\S+)\s*\(void\)] *)
Definition re_kbfun_name : pattern :=
  (lit "void" ++ [Plus Space; Open] ++ lit "kbfun_"
   ++ [Plus NonSpace; Close; Star Space] ++ lit "(void)")%list.

(** The loop of [read_comments]: [line] is the line last read, [f] the
    lines that follow it. *)
Fixpoint read_comments_from (f : list string) (line : string)
    (comments : string) : result (string * list string) :=
  if bool_decide (strip line ≠ "*/") then
    let comments := comments +:+ strip (drop_chars 2 line) +:+ nl in
    match f with
    | line :: f => read_comments_from f line comments
    | [] => Raise StopIteration
    end
  else Ok (comments, f).

Definition read_comments (f : list string) (line : string)
  : result (string * list string) :=
  read_comments_from f line "".

Definition add_field (output : gmap string pyobj) (field : option string)
    (value : option string) : result (gmap string pyobj) :=
  value ← match value with
           | Some v => Ok (strip v)
           | None => Raise AttributeError
           end;
  match field with
  | Some field =>
      if bool_decide (field = "name" ∨ field = "description") then
        if bool_decide (field ∉ dom output)
        then Ok (<[field := PyStr value]> output)
        else Ok output
      else
        let field := if bool_decide (field = "note") then "notes"
                     else field in
        let output := if bool_decide (field ∉ dom output)
                      then <[field := PyList []]> output
                      else output in
        match output !! field with
        | Some (PyList l) =>
            Ok (<[field := PyList (l ++ [PyStr value])]> output)
        | Some _ => Raise TypeError
        | None => Raise (KeyError field)
        end
  | None => Ok output
  end.

(** The state of the loop of [parse_comments] *)
Record pstate : Type := PState {
  p_output : gmap string pyobj;
  p_field : option string;
  p_value : option string
}.

(** The [else] branch of the loop: the value with the line added *)
Definition accumulate (value : option string) (line : string) : string :=
  let value := match value with None => "" | Some v => v end in
  let line := if bool_decide (0 < String.length value)%nat
                 && bool_decide (last_char value = Some "."%char)
              then " " +:+ line else line in
  value +:+ " " +:+ line.

(** One turn of the loop *)
Definition parse_line (st : pstate) (line : string) : result pstate :=
  let line := strip line in
  if bool_decide (is_Some (search re_field line)) then
    output ← add_field (p_output st) (p_field st) (p_value st);
    Ok (PState output (Some (drop_chars 1 (drop_last line))) None)
  else
    Ok (PState (p_output st) (p_field st)
          (Some (accumulate (p_value st) line))).

Fixpoint parse_lines (lines : list string) (st : pstate) : result pstate :=
  match lines with
  | [] => Ok st
  | line :: lines => st ← parse_line st line; parse_lines lines st
  end.

Definition parse_comments (comments : string) : result pyobj :=
  st ← parse_lines (split_nl comments) (PState ∅ None None);
  output ← add_field (p_output st) (p_field st) (p_value st);
  Ok (PyDict output).

Definition parse_keyboard_function (f : list string) (line : string)
    (comments : string) : result pyobj :=
  name ← group (search re_kbfun_name line) 1;
  parsed ← parse_comments comments;
  Ok (PyDict {[ "keyboard-functions" :=
                 PyDict {[ name := PyDict {[ "comments" := parsed ]} ]} ]}).

(** The loop [for line in f] over one file *)
Fixpoint scan (fuel : nat) (f : list string) (comments : string)
    (output : pyobj) : result pyobj :=
  match f with
  | [] => Ok output
  | line :: f =>
      match fuel with
      | O => Raise OutOfFuel
      | S fuel =>
          if bool_decide (strip line = "/*") then
            '(comments, f) ← read_comments f line;
            scan fuel f comments output
          else if bool_decide (is_Some (search re_kbfun line)) then
            found ← parse_keyboard_function f line comments;
            scan fuel f comments (dict_merge output found)
          else scan fuel f comments output
      end
  end.

(** The loop over the files *)
Fixpoint scan_files (files : list (string * list string))
    (output : pyobj) : result pyobj :=
  match files with
  | [] => Ok output
  | (file_name, f) :: files =>
      if bool_decide (last_two file_name ≠ ".c") then
        scan_files files output
      else
        output ← scan (length f) f "" output;
        scan_files files output
  end.

Definition parse_source_code (files : list (string * list string))
  : result pyobj :=
  scan_files files (PyDict ∅).

End SourceCode.

(** ** Notions used in the statements *)

(** *** Inputs and outputs *)

(** A line of a text file, with its terminator, and a text of such lines *)
Definition line (s : string) : string := s +:+ nl.
Definition text (ls : list string) : string := join (map line ls).

(** A merged tree in which the matrix [_kb_layout] has the given length *)
Definition layout_data (position length : Z) : pyobj :=
  PyDict {[ "layout-matrices" :=
              PyDict {[ "_kb_layout" := MapFile.record position length ]} ]}.

(** What [gen_derived] returns for [n] layers *)
Definition number_of_layers (n : Z) : pyobj :=
  PyDict {[ "miscellaneous" := PyDict {[ "number-of-layers" := PyInt n ]} ]}.

(** The three records of the layout matrices *)
Definition layout_records (p1 p2 p3 base_length : Z) : pyobj :=
  PyDict {[ "layout-matrices" :=
              PyDict {[ "_kb_layout" := MapFile.record p1 base_length;
                        "_kb_layout_press" :=
                          MapFile.record p2 (base_length * 2);
                        "_kb_layout_release" :=
                          MapFile.record p3 (base_length * 2) ]} ]}.

(** The comments recorded for a function in the output of a parser *)
Definition comments_of (output : pyobj) (name : string) : result pyobj :=
  functions ← subscript output "keyboard-functions";
  function ← subscript functions name;
  subscript function "comments".

(** The record of a function with its parsed comments *)
Definition function_comments (name : string) (parsed : pyobj) : pyobj :=
  PyDict {[ "keyboard-functions" :=
              PyDict {[ name := PyDict {[ "comments" := parsed ]} ]} ]}.

(** *** Dictionaries *)

(** What the loop of [dict_merge] leaves in [a] under a key *)
Definition merged (da db : gmap string pyobj) (key : string) : option pyobj :=
  match db !! key with
  | Some y => Some (match da !! key with
                    | Some x => dict_merge x y
                    | None => y
                    end)
  | None => da !! key
  end.

(** *** Patterns *)

(** A pattern without its groups *)
Fixpoint erase (p : Re.pattern) : Re.pattern :=
  match p with
  | [] => []
  | Re.Open :: p' | Re.Close :: p' => erase p'
  | i :: p' => i :: erase p'
  end.

(** The number of groups of a pattern *)
Fixpoint groups (p : Re.pattern) : nat :=
  match p with
  | [] => O
  | Re.Close :: p' => S (groups p')
  | _ :: p' => groups p'
  end.

(** Whether a character occurs in a string *)
Fixpoint occurs (c : ascii) (s : string) : bool :=
  match s with
  | "" => false
  | String a s' => Ascii.eqb c a || occurs c s'
  end.

(** A string of characters of one class *)
Fixpoint all_in (cl : Re.cclass) (s : string) : bool :=
  match s with
  | "" => true
  | String c s' => Re.in_class cl c && all_in cl s'
  end.

(** A string that is empty or starts outside of a class: a run of
    characters of the class stops there. *)
Definition stops (cl : Re.cclass) (s : string) : bool :=
  match s with
  | "" => true
  | String c _ => negb (Re.in_class cl c)
  end.

(** The text of an open group after the string [s] has been read *)
Definition pushs (cur : option string) (s : string) : option string :=
  match cur with
  | Some g => Some (g +:+ s)
  | None => None
  end.

(** *** The lines of the layout matrices *)

(** A string of hexadecimal digits, and its value *)
Fixpoint all_hex (s : string) : bool :=
  match s with
  | "" => true
  | String c s' => bool_decide (is_Some (hex_digit c)) && all_hex s'
  end.

Fixpoint hex_value_from (acc : Z) (h : string) : Z :=
  match h with
  | "" => acc
  | String c h' => hex_value_from (16 * acc + default 0 (hex_digit c)) h'
  end.

Definition hex_value (h : string) : Z := hex_value_from 0 h.

(** The names of the three matrices *)
Definition matrix_names : list string :=
  ["_kb_layout"; "_kb_layout_press"; "_kb_layout_release"].

(** The line of a matrix in the map file: white space, the position as a
    token [0x] with the digits [h], white space, the name *)
Definition matrix_line (pad h pad' name : string) : string :=
  pad +:+ "0x" +:+ h +:+ pad' +:+ name +:+ nl.

Definition matrix_line_ok (pad h pad' : string) : Prop :=
  all_in Re.Space pad = true /\ all_hex h = true /\ h <> ""
  /\ all_in Re.Space pad' = true /\ pad' <> "".

(** The lines of the three matrices *)
Definition matrix_block (pad1 h1 pad1' pad2 h2 pad2' pad3 h3 pad3' : string)
  : list string :=
  [matrix_line pad1 h1 pad1' "_kb_layout";
   matrix_line pad2 h2 pad2' "_kb_layout_press";
   matrix_line pad3 h3 pad3' "_kb_layout_release"].

(** Whether a string starts with [0x], and whether [0x] starts nowhere in
    [s] when [s] is followed by [rest] *)
Definition starts_0x (s : string) : bool :=
  match s with
  | String c s' =>
      Ascii.eqb c "0" && match s' with
                         | String c' _ => Ascii.eqb c' "x"
                         | "" => false
                         end
  | "" => false
  end.

Fixpoint free_of_0x (s rest : string) : bool :=
  match s with
  | "" => true
  | String c s' =>
      negb (starts_0x (String c (s' +:+ rest))) && free_of_0x s' rest
  end.

(** *** The sections of a comment *)

(** The calls of [add_field] that the loop of [parse_comments] makes, in
    order, the one after the loop included: the field and the value that
    each call closes. *)
Fixpoint closings (lines : list string) (field value : option string)
  : list (option string * option string) :=
  match lines with
  | [] => [(field, value)]
  | line :: lines =>
      let line := strip line in
      if bool_decide (is_Some (Re.search SourceCode.re_field line)) then
        (field, value)
          :: closings lines (Some (drop_chars 1 (drop_last line))) None
      else
        closings lines field (Some (SourceCode.accumulate value line))
  end.

Definition sections (comments : string)
  : list (option string * option string) :=
  closings (split_nl comments) None None.

(** A sequence of calls of [add_field] *)
Fixpoint add_fields (cs : list (option string * option string))
    (output : gmap string pyobj) : result (gmap string pyobj) :=
  match cs with
  | [] => Ok output
  | (field, value) :: cs =>
      output ← SourceCode.add_field output field value;
      add_fields cs output
  end.

(** The sections with a field name, each with its value, stripped *)
Fixpoint closed (cs : list (option string * option string))
  : list (string * string) :=
  match cs with
  | [] => []
  | (Some field, Some value) :: cs => (field, strip value) :: closed cs
  | _ :: cs => closed cs
  end.

(** The value of the first section of a field *)
Fixpoint first_value (field : string) (cl : list (string * string))
  : option string :=
  match cl with
  | [] => None
  | (f, v) :: cl =>
      if bool_decide (f = field) then Some v else first_value field cl
  end.

(** The key under which the values of a field are collected *)
Definition key_of (field : string) : string :=
  if bool_decide (field = "note") then "notes" else field.

(** The values of all the sections collected under a key, in order *)
Fixpoint all_values (key : string) (cl : list (string * string))
  : list string :=
  match cl with
  | [] => []
  | (f, v) :: cl =>
      if bool_decide (f <> "name" /\ f <> "description" /\ key_of f = key)
      then v :: all_values key cl
      else all_values key cl
  end.

(** Under the keys other than [name] and [description] there are lists. *)
Definition lists_only (o : gmap string pyobj) : Prop :=
  forall key x, key <> "name" -> key <> "description" ->
                o !! key = Some x -> exists l, x = PyList l.

(** The items of the list under a key, none when the key is absent *)
Definition items (x : option pyobj) : list pyobj :=
  match x with
  | Some (PyList l) => l
  | _ => []
  end.

(** *** The scan of a source file *)

(** What the scan of a line adds to the output while no comment has been
    read in the file *)
Definition unbound (output : pyobj) (l : string) : pyobj :=
  if bool_decide (is_Some (Re.search SourceCode.re_kbfun l)) then
    match Re.group (Re.search SourceCode.re_kbfun_name l) 1 with
    | Ok name => dict_merge output (function_comments name (PyDict ∅))
    | Raise _ => output
    end
  else output.

(** *** The loops *)

(** A result that is not the end of the fuel: a value, or an exception of
    Python *)
Definition raised {A} (m : result A) : Prop := m <> Raise OutOfFuel.

(** [b] is within [r]: a value that is not a dictionary is [r] itself, and
    a dictionary has each of its keys in [r], with a value within the
    value there. *)
Fixpoint within (b r : pyobj) {struct b} : Prop :=
  match b with
  | PyDict db =>
      match r with
      | PyDict dr =>
          map_fold (fun key y (P : Prop) =>
                      (exists x, dr !! key = Some x /\ within y x) /\ P)
            True db
      | _ => False
      end
  | _ => r = b
  end.

(** A line of the map file that starts neither a keyboard function nor the
    layout matrices *)
Definition plain_line (l : string) : Prop :=
  Re.search MapFile.re_kbfun_trigger l = None
  /\ Re.search MapFile.re_layout_trigger l = None.

(** What [parse_mapfile] returns: keyboard functions with a position and a
    length, and the three layout matrices of one block, at positions that
    are not zero and with the lengths of one base length. *)
Definition map_functions (x : pyobj) : Prop :=
  exists fs, x = PyDict fs
    /\ forall name y, fs !! name = Some y ->
         exists position length, y = MapFile.record position length.

Definition map_matrices (x : pyobj) : Prop :=
  exists p1 p2 p3 base_length,
    p1 <> 0 /\ p2 <> 0 /\ p3 <> 0
    /\ x = PyDict {[ "_kb_layout" := MapFile.record p1 base_length;
                     "_kb_layout_press" := MapFile.record p2 (base_length * 2);
                     "_kb_layout_release" :=
                       MapFile.record p3 (base_length * 2) ]}.

Definition map_output (output : pyobj) : Prop :=
  exists d, output = PyDict d
    /\ forall key x, d !! key = Some x ->
         (key = "keyboard-functions" /\ map_functions x)
         \/ (key = "layout-matrices" /\ map_matrices x).

(** The two lines that follow the first line of a keyboard function in the
    map file: the position and the length as two tokens [0x], and the
    position again with the name.  What follows the last token of a line
    is empty or starts with white space. *)
Definition position_line (pad h1 pad' h2 tail : string) : string :=
  pad +:+ "0x" +:+ h1 +:+ pad' +:+ "0x" +:+ h2 +:+ tail.

Definition position_line_ok (pad h1 pad' h2 tail : string) : Prop :=
  all_in Re.Space pad = true /\ all_hex h1 = true /\ h1 <> ""
  /\ all_in Re.Space pad' = true /\ pad' <> ""
  /\ all_hex h2 = true /\ h2 <> "" /\ stops Re.NonSpace tail = true.

Definition name_line (pad h pad' name tail : string) : string :=
  pad +:+ "0x" +:+ h +:+ pad' +:+ name +:+ tail.

Definition name_line_ok (pad h pad' name tail : string) : Prop :=
  all_in Re.Space pad = true /\ all_hex h = true /\ h <> ""
  /\ all_in Re.Space pad' = true /\ pad' <> ""
  /\ all_in Re.NonSpace name = true /\ name <> ""
  /\ stops Re.NonSpace tail = true.

(** What [read_comments] keeps of a line of a comment *)
Definition comment_line (l : string) : string :=
  strip (drop_chars 2 l) +:+ nl.

(** Whether the loop of [parse_comments] closes a section while [value] is
    [None]; [fresh] tells whether [value] is [None] before the lines.
    This is so when a marker is the first line or comes directly after
    another marker. *)
Fixpoint bare_section (lines : list string) (fresh : bool) : bool :=
  match lines with
  | [] => fresh
  | l :: lines =>
      if bool_decide (is_Some (Re.search SourceCode.re_field (strip l)))
      then fresh || bare_section lines true
      else bare_section lines false
  end.

(** What the scan of a line adds to the output while the comment last read
    is one that [parse_comments] turns into [parsed] *)
Definition bound (parsed output : pyobj) (l : string) : pyobj :=
  if bool_decide (is_Some (Re.search SourceCode.re_kbfun l)) then
    match Re.group (Re.search SourceCode.re_kbfun_name l) 1 with
    | Ok name => dict_merge output (function_comments name parsed)
    | Raise _ => output
    end
  else output.

(** The files that [parse_source_code] reads *)
Definition c_files (files : list (string * list string))
  : list (string * list string) :=
  filter (fun file => last_two file.1 = ".c") files.

(** A name made of [kbfun_] and of characters, at least one, that are not
    white space *)
Definition kbfun_name (name : string) : Prop :=
  exists h, name = "kbfun_" +:+ h /\ h <> "" /\ all_in Re.NonSpace h = true.

(** What [parse_comments] returns: strings under [name] and
    [description], lists of strings that are not empty under the other
    keys. *)
Definition comments_shape (c : pyobj) : Prop :=
  exists d, c = PyDict d
    /\ forall key v, d !! key = Some v ->
         if bool_decide (key = "name" \/ key = "description")
         then exists s, v = PyStr s
         else exists vs, vs <> [] /\ v = PyList (PyStr <$> vs).

(** What [parse_source_code] returns: functions only, each under a name
    that starts with [kbfun_], with its comments and nothing else. *)
Definition source_functions (x : pyobj) : Prop :=
  exists fs, x = PyDict fs
    /\ forall name y, fs !! name = Some y ->
         kbfun_name name
         /\ exists c, y = PyDict {[ "comments" := c ]} /\ comments_shape c.

Definition source_output (output : pyobj) : Prop :=
  exists d, output = PyDict d
    /\ forall key x, d !! key = Some x ->
         key = "keyboard-functions" /\ source_functions x.

(** ** [gen_static] and [main]

    [date] is what the environment gives for the date: the output of the
    command [date] on a POSIX system, [None] elsewhere. *)

Definition py_str (s : option string) : pyobj :=
  match s with
  | Some s => PyStr s
  | None => PyNone
  end.

Definition gen_static (date git_commit_date git_commit_id : option string)
  : pyobj :=
  PyDict {[ ".meta-data" :=
              PyDict {[ "version" := PyInt 0;
                        "date-generated" := py_str date ]};
            "miscellaneous" :=
              PyDict {[ "git-commit-date" := py_str git_commit_date;
                        "git-commit-id" := py_str git_commit_id ]} ]}.

(** [main], from the parsed arguments to the tree that is printed: the
    two paths are given by the content of the map file and of the source
    tree.  At each call of [dict_merge] the two arguments are dictionaries,
    so [output] after the call is what the call returns. *)
Definition main (date : option string) (git_commit_date git_commit_id : string)
    (map_file : list string) (source_code : list (string * list string))
  : result pyobj :=
  let output := PyDict ∅ in
  let output :=
    dict_merge output
      (gen_static date (Some git_commit_date) (Some git_commit_id)) in
  found ← MapFile.parse_mapfile map_file;
  let output := dict_merge output found in
  found ← SourceCode.parse_source_code source_code;
  let output := dict_merge output found in
  derived ← gen_derived output;
  let output := dict_merge output derived in
  Ok output.

(** The record of a function in an output *)
Definition function_of (output : pyobj) (name : string) : option pyobj :=
  match output with
  | PyDict d =>
      match d !! "keyboard-functions" with
      | Some (PyDict fs) => fs !! name
      | _ => None
      end
  | _ => None
  end.

(** The entry of an output under a key *)
Definition entry (output : pyobj) (key : string) : option pyobj :=
  match output with
  | PyDict d => d !! key
  | _ => None
  end.

(** What [main] prints: the four entries of the format and no other *)
Definition main_shape (date : option string)
    (git_commit_date git_commit_id : string) (out : pyobj) : Prop :=
  exists p1 p2 p3 base_length n,
    int_truediv base_length (6 * 14) = Ok n
    /\ p1 <> 0 /\ p2 <> 0 /\ p3 <> 0
    /\ entry out ".meta-data"
       = Some (PyDict {[ "version" := PyInt 0;
                         "date-generated" := py_str date ]})
    /\ entry out "miscellaneous"
       = Some (PyDict {[ "git-commit-date" := PyStr git_commit_date;
                         "git-commit-id" := PyStr git_commit_id;
                         "number-of-layers" := PyInt n ]})
    /\ entry out "layout-matrices"
       = Some (PyDict {[ "_kb_layout" := MapFile.record p1 base_length;
                         "_kb_layout_press" :=
                           MapFile.record p2 (base_length * 2);
                         "_kb_layout_release" :=
                           MapFile.record p3 (base_length * 2) ]})
    /\ forall key, is_Some (entry out key) ->
         key = ".meta-data" \/ key = "miscellaneous"
         \/ key = "layout-matrices" \/ key = "keyboard-functions".

(** A small map file and a small source tree *)
Definition map_file_example : list string :=
  map line
    [" .text.kbfun_press";
     "                0x0000241e       0x1c build/main.o";
     "                0x0000241e                kbfun_press";
     " .text.kbfun_release";
     "                0x0000243a       0x20 build/main.o";
     "                0x0000243a                kbfun_release";
     " .progmem.data  0x00006a3e      0x4ec build/layout.o";
     "                0x00006a3e                _kb_layout";
     "                0x00006b3a                _kb_layout_press";
     "                0x00006d32                _kb_layout_release"].

Definition source_code_example : list (string * list string) :=
  [("src/main.h", map line ["void kbfun_press(void);"]);
   ("src/main.c",
    map line ["/*"; " * [name]"; " *   Press"; " * [note]"; " *   One";
              " */"; "void kbfun_press(void) {"; "}";
              "void kbfun_toggle(void) {"; "}"])].

(** What the two parsers and [main] give for them *)
Definition parsed_map_example : pyobj :=
  PyDict {[ "keyboard-functions" :=
              PyDict {[ "kbfun_press" := MapFile.record 9246 28;
                        "kbfun_release" := MapFile.record 9274 32 ]};
            "layout-matrices" :=
              PyDict {[ "_kb_layout" := MapFile.record 27198 252;
                        "_kb_layout_press" := MapFile.record 27450 504;
                        "_kb_layout_release" := MapFile.record 27954 504 ]} ]}.

Definition comments_example : pyobj :=
  PyDict {[ "name" := PyStr "Press"; "notes" := PyList [PyStr "One"] ]}.

Definition parsed_source_example : pyobj :=
  PyDict {[ "keyboard-functions" :=
              PyDict {[ "kbfun_press" :=
                          PyDict {[ "comments" := comments_example ]};
                        "kbfun_toggle" :=
                          PyDict {[ "comments" := comments_example ]} ]} ]}.

Definition printed_example (date : option string) : pyobj :=
  PyDict
    {[ ".meta-data" :=
         PyDict {[ "version" := PyInt 0; "date-generated" := py_str date ]};
       "miscellaneous" :=
         PyDict {[ "git-commit-date" := PyStr "2012-09-30 10:00:00-07:00";
                   "git-commit-id" := PyStr "0123abc";
                   "number-of-layers" := PyInt 3 ]};
       "layout-matrices" :=
         PyDict {[ "_kb_layout" := MapFile.record 27198 252;
                   "_kb_layout_press" := MapFile.record 27450 504;
                   "_kb_layout_release" := MapFile.record 27954 504 ]};
       "keyboard-functions" :=
         PyDict {[ "kbfun_press" :=
                     PyDict {[ "position" := PyInt 9246;
                               "length" := PyInt 28;
                               "comments" := comments_example ]};
                   "kbfun_release" := MapFile.record 9274 32;
                   "kbfun_toggle" :=
                     PyDict {[ "comments" := comments_example ]} ]} ]}.



(** A line that declares the function [name] *)
Definition declares (name l : string) : Prop :=
  Re.group (Re.search SourceCode.re_kbfun_name l) 1 = Ok name.

(** The lines of a file before the first line that opens a comment, and
    the lines from that line on *)
Fixpoint before_comment (lines : list string) : list string :=
  match lines with
  | [] => []
  | l :: lines =>
      if bool_decide (strip l = "/*") then [] else l :: before_comment lines
  end.

Fixpoint from_comment (lines : list string) : list string :=
  match lines with
  | [] => []
  | l :: lines' =>
      if bool_decide (strip l = "/*") then lines else from_comment lines'
  end.

(** The record of a function with the comments of an empty block *)
Definition no_comments : pyobj := PyDict {[ "comments" := PyDict ∅ ]}.

(** * Properties *)

(** ** Nested dictionaries *)

Section Dictionaries.

Implicit Types (a b v : pyobj) (da db d : gmap string pyobj).

Lemma vsize_lookup d key v :
  d !! key = Some v -> (vsize v < vsize (PyDict d))%nat.
Proof.
  simpl. revert key v.
  apply (map_fold_weak_ind
           (fun n d => forall key v, d !! key = Some v -> (vsize v < S n)%nat)).
  - intros key v. by rewrite lookup_empty.
  - intros i x m r Hi IH key v. rewrite lookup_insert.
    case_decide as Hk.
    + intros [= ->]. lia.
    + intros Hv. specialize (IH key v Hv). lia.
Qed.

(** Induction on the nesting of dictionaries *)
Lemma pyobj_dict_ind (P : pyobj -> Prop) :
  (forall v, (forall d, v <> PyDict d) -> P v) ->
  (forall d, map_Forall (fun _ x => P x) d -> P (PyDict d)) ->
  forall v, P v.
Proof.
  intros Hleaf Hdict v.
  remember (vsize v) as n eqn:Hn. revert v Hn.
  induction n as [n IH] using lt_wf_ind. intros v ->.
  destruct v as [| | | |d]; try (apply Hleaf; discriminate).
  apply Hdict. intros key x Hx.
  apply (IH (vsize x)); [by eapply vsize_lookup|done].
Qed.

Lemma dict_merge_dict da db :
  exists m, dict_merge (PyDict da) (PyDict db) = PyDict m
            /\ forall key, m !! key = merged da db key.
Proof.
  eexists. split; [reflexivity|].
  unfold merged.
  apply (map_fold_weak_ind
           (fun (m : gmap string pyobj) db => forall key,
                m !! key = match db !! key with
                           | Some y => Some (match da !! key with
                                             | Some x => dict_merge x y
                                             | None => y
                                             end)
                           | None => da !! key
                           end)).
  - intros key. by rewrite lookup_empty.
  - intros i y db' m Hi IH key.
    pose proof (IH i) as IHi. rewrite Hi in IHi.
    rewrite (lookup_insert db'). case_decide as Hk.
    + subst key. rewrite IHi.
      destruct (da !! i); by rewrite lookup_insert_eq.
    + rewrite <- IH.
      destruct (m !! i); by rewrite lookup_insert_ne.
Qed.

Lemma dict_merge_leaf_r a b :
  (forall d, b <> PyDict d) -> dict_merge a b = b.
Proof. intros Hb. destruct a, b; try reflexivity. by destruct (Hb d0). Qed.

Lemma dict_merge_leaf_l a b :
  (forall d, a <> PyDict d) -> dict_merge a b = b.
Proof. intros Ha. destruct a, b; try reflexivity. by destruct (Ha d). Qed.

Lemma dict_merge_self a : dict_merge a a = a.
Proof.
  induction a as [a Ha|d IH] using pyobj_dict_ind.
  - by apply dict_merge_leaf_r.
  - destruct (dict_merge_dict d d) as (m & -> & Hm). f_equal.
    apply map_eq. intros key. rewrite Hm. unfold merged.
    destruct (d !! key) as [x|] eqn:Hx; [|done].
    f_equal. by apply (IH key).
Qed.

Lemma dict_merge_again a b :
  dict_merge (dict_merge a b) b = dict_merge a b.
Proof.
  revert a. induction b as [b Hb|db IH] using pyobj_dict_ind; intros a.
  - by rewrite !dict_merge_leaf_r.
  - destruct a as [| | | |da].
    5: { destruct (dict_merge_dict da db) as (m & -> & Hm).
      destruct (dict_merge_dict m db) as (m' & -> & Hm'). f_equal.
      apply map_eq. intros key. rewrite Hm', Hm. unfold merged.
      rewrite Hm. unfold merged.
      destruct (db !! key) as [y|] eqn:Hy; [|done]. f_equal.
      destruct (da !! key) as [x|].
      - by apply (IH key).
      - apply dict_merge_self. }
    all: match goal with
         | |- dict_merge (dict_merge ?a ?b) ?b = _ =>
             replace (dict_merge a b) with b by reflexivity
         end; apply dict_merge_self.
Qed.

(** C4: merging the same addend a second time changes nothing, and merging
    a value into itself gives that value back; for every two values, nested
    dictionaries included. *)
Theorem dict_merge_idempotent :
  (forall a b, dict_merge (dict_merge a b) b = dict_merge a b)
  /\ (forall a, dict_merge a a = a).
Proof. split; [apply dict_merge_again|apply dict_merge_self]. Qed.

(** C5: the keys of [dict_merge(a, b)] are the keys of [a] together with
    the keys of [b]; when no key is in both, every key keeps the value it
    had in its dictionary, that is, the result is the union of the two. *)
Theorem dict_merge_keeps_keys da db :
  exists m, dict_merge (PyDict da) (PyDict db) = PyDict m
            /\ dom m = dom da ∪ dom db
            /\ (dom da ## dom db ->
                (forall key x, da !! key = Some x -> m !! key = Some x)
                /\ (forall key y, db !! key = Some y -> m !! key = Some y)
                /\ m = da ∪ db).
Proof.
  destruct (dict_merge_dict da db) as (m & Hm & Hlook).
  exists m. split; [done|]. split.
  - apply set_eq. intros key.
    rewrite elem_of_union, !elem_of_dom, Hlook. unfold merged.
    destruct (db !! key), (da !! key); split; intros H;
      try (by eauto); try (by destruct H as [[? [=]]|[? [=]]]).
  - intros Hdisj.
    assert (forall key x y, da !! key = Some x -> db !! key = Some y -> False)
      as Hno.
    { intros key x y Hx Hy. apply (Hdisj key); apply elem_of_dom; eauto. }
    split; [|split].
    + intros key x Hx. rewrite Hlook. unfold merged.
      destruct (db !! key) as [y|] eqn:Hy; [by destruct (Hno key x y)|done].
    + intros key y Hy. rewrite Hlook. unfold merged. rewrite Hy.
      destruct (da !! key) as [x|] eqn:Hx; [by destruct (Hno key x y)|done].
    + apply map_eq. intros key. rewrite Hlook, lookup_union. unfold merged.
      destruct (db !! key) as [y|] eqn:Hy, (da !! key) as [x|] eqn:Hx;
        try done. by destruct (Hno key x y).
Qed.

End Dictionaries.

(** ** Division *)

Section Division.

Lemma rne_bounds n d :
  0 <= n -> 0 < d ->
  n / d <= rne n d <= n / d + 1 /\ (rne n d = n / d + 1 -> d <= 2 * (n mod d)).
Proof.
  intros Hn Hd. unfold rne.
  destruct (Z.ltb_spec (2 * (n mod d)) d); [lia|].
  destruct (Z.ltb_spec d (2 * (n mod d))); [lia|].
  destruct (Z.even (n / d)); lia.
Qed.

(** With [s] fractional bits, where [b < 2 ^ (s + 1)], rounding cannot
    reach the next integer. *)
Lemma rne_scaled_floor a b s :
  0 <= a -> 0 < b -> 0 < s -> b < 2 ^ (s + 1) ->
  rne (a * 2 ^ s) b / 2 ^ s = a / b.
Proof.
  intros Ha Hb Hs Hbs.
  assert (0 < 2 ^ s) as Hp by (apply Z.pow_pos_nonneg; lia).
  assert (2 ^ (s + 1) = 2 * 2 ^ s) as Hp1 by (rewrite Z.pow_add_r; lia).
  destruct (rne_bounds (a * 2 ^ s) b) as [[Hlo Hhi] Hup]; [nia|lia|].
  pose proof (Z.div_mod a b ltac:(lia)) as Hab.
  pose proof (Z.mod_pos_bound a b Hb) as Hr.
  pose proof (Z.div_mod (a * 2 ^ s) b ltac:(lia)) as Hnb.
  pose proof (Z.mod_pos_bound (a * 2 ^ s) b Hb) as Hnr.
  set (q := a / b) in *. set (r := a mod b) in *.
  set (Q := (a * 2 ^ s) / b) in *. set (R := (a * 2 ^ s) mod b) in *.
  set (m := rne (a * 2 ^ s) b) in *.
  assert (q * 2 ^ s <= Q) as HQlo.
  { apply Z.div_le_lower_bound; nia. }
  assert (Q < (q + 1) * 2 ^ s) as HQhi.
  { apply Z.div_lt_upper_bound; nia. }
  assert (m < (q + 1) * 2 ^ s) as Hm.
  { destruct (Z.eq_dec m (Q + 1)) as [E|]; [|lia].
    specialize (Hup E).
    destruct (Z.eq_dec Q ((q + 1) * 2 ^ s - 1)) as [EQ|]; [|lia].
    nia. }
  symmetry. apply Z.div_unique with (r := m - q * 2 ^ s); lia.
Qed.

Lemma quot_log2_le a b k :
  0 < a -> 0 < b -> 0 <= k -> a < b * 2 ^ k -> quot_log2 a b <= k - 1.
Proof.
  intros Ha Hb Hk Hlt. unfold quot_log2.
  assert (Z.log2 a <= Z.log2 b + k) as Hlog.
  { replace (Z.log2 b + k) with (k + Z.log2 b) by lia.
    rewrite <- Z.log2_mul_pow2 by lia. apply Z.log2_le_mono. lia. }
  destruct (Z.leb_spec (b * 2 ^ Z.max 0 (Z.log2 a - Z.log2 b))
              (a * 2 ^ Z.max 0 (- (Z.log2 a - Z.log2 b)))) as [Hle|]; [|lia].
  destruct (Z.eq_dec (Z.log2 a - Z.log2 b) k) as [E|]; [|lia].
  rewrite E in Hle. rewrite Z.max_r in Hle by lia.
  rewrite Z.max_l in Hle by lia. simpl in Hle. lia.
Qed.

Lemma quot_log2_upper a b :
  0 < a -> 0 < b ->
  a * 2 ^ Z.max 0 (- (quot_log2 a b + 1))
  < b * 2 ^ Z.max 0 (quot_log2 a b + 1).
Proof.
  intros Ha Hb. unfold quot_log2.
  destruct (Z.log2_spec a Ha) as [Ha1 Ha2].
  destruct (Z.log2_spec b Hb) as [Hb1 Hb2].
  pose proof (Z.log2_nonneg a). pose proof (Z.log2_nonneg b).
  set (la := Z.log2 a) in *. set (lb := Z.log2 b) in *.
  destruct (Z.leb_spec (b * 2 ^ Z.max 0 (la - lb))
              (a * 2 ^ Z.max 0 (- (la - lb)))) as [Hle|Hgt].
  - destruct (Z.le_gt_cases 0 (la - lb + 1)).
    + rewrite Z.max_l, Z.max_r by lia.
      replace (Z.succ la) with (lb + (la - lb + 1)) in Ha2 by lia.
      rewrite Z.pow_add_r in Ha2 by lia.
      assert (0 < 2 ^ (la - lb + 1)) by (apply Z.pow_pos_nonneg; lia).
      nia.
    + rewrite Z.max_r, Z.max_l by lia.
      replace lb with (Z.succ la + (- (la - lb + 1))) in Hb1 by lia.
      rewrite Z.pow_add_r in Hb1 by lia.
      assert (0 < 2 ^ (- (la - lb + 1))) by (apply Z.pow_pos_nonneg; lia).
      nia.
  - replace (la - lb - 1 + 1) with (la - lb) by lia. lia.
Qed.

Lemma significand_bound a b :
  0 < a -> 0 < b -> quot_log2 a b - 52 < 0 ->
  a * 2 ^ (- (quot_log2 a b - 52)) < b * 2 ^ 53.
Proof.
  intros Ha Hb Hs. pose proof (quot_log2_upper a b Ha Hb) as Hu.
  set (e := quot_log2 a b) in *.
  destruct (Z.le_gt_cases 0 (e + 1)).
  - rewrite Z.max_l, Z.max_r in Hu by lia.
    replace 53 with ((e + 1) + (- (e - 52))) by lia.
    rewrite Z.pow_add_r by lia.
    assert (0 < 2 ^ (- (e - 52))) by (apply Z.pow_pos_nonneg; lia).
    nia.
  - rewrite Z.max_r, Z.max_l in Hu by lia.
    replace (- (e - 52)) with (- (e + 1) + 53) by lia.
    rewrite Z.pow_add_r by lia.
    assert (0 < 2 ^ 53) by (apply Z.pow_pos_nonneg; lia).
    nia.
Qed.

(** [int(a / b)] is the floor of the quotient as long as the quotient is
    below [2 ^ (54 - k)], where [b < 2 ^ k]. *)
Lemma int_truediv_floor a b k :
  0 <= a -> 0 < b -> 1 < k <= 53 -> b < 2 ^ k -> a < b * 2 ^ (54 - k) ->
  int_truediv a b = Ok (a / b).
Proof.
  intros Ha Hb Hk Hbk Hlt. unfold int_truediv.
  destruct (Z.eqb_spec b 0); [lia|].
  destruct (Z.eqb_spec a 0) as [->|]; [by rewrite Z.div_0_l|].
  rewrite !Z.abs_eq by lia.
  pose proof (quot_log2_le a b (54 - k) ltac:(lia) Hb ltac:(lia) Hlt) as He.
  unfold int_truediv_pos.
  set (shift := quot_log2 a b - 52) in *.
  destruct (Z.leb_spec 0 shift); [lia|].
  rewrite Z.max_l by lia.
  assert (rne (a * 2 ^ (- shift)) b / 2 ^ (- shift) = a / b) as Hq.
  { apply rne_scaled_floor; try lia.
    apply Z.lt_le_trans with (2 ^ k); [done|].
    apply Z.pow_le_mono_r; lia. }
  assert (0 < 2 ^ (- shift)) as Hp by (apply Z.pow_pos_nonneg; lia).
  destruct (rne_bounds (a * 2 ^ (- shift)) b) as [[Hlo Hhi] _]; [nia|lia|].
  destruct (Z.leb_spec (2 ^ 1024) (rne (a * 2 ^ (- shift)) b * 2 ^ 0)) as [Hov|].
  - exfalso.
    pose proof (significand_bound a b ltac:(lia) Hb ltac:(lia)) as Hsig.
    fold shift in Hsig.
    assert ((a * 2 ^ (- shift)) / b < 2 ^ 53) as Hq53.
    { apply Z.div_lt_upper_bound; lia. }
    assert (2 ^ 53 + 1 < 2 ^ 1024) by (vm_compute; reflexivity).
    lia.
  - simpl. rewrite Hq.
    replace (Z.sgn a) with 1 by lia. replace (Z.sgn b) with 1 by lia.
    f_equal. lia.
Qed.

End Division.

(** ** The derived field *)

(** C8, as amended: for a length from 0 up to (not including) 84 * 2^47,
    the number of layers that [gen_derived] returns is the length divided
    by 84, rounded down.  (The script divides as floating-point numbers and
    drops the fraction, which agrees with integer division on this
    range.) *)
Theorem gen_derived_layers data matrices layout n :
  subscript data "layout-matrices" = Ok matrices ->
  subscript matrices "_kb_layout" = Ok layout ->
  subscript layout "length" = Ok (PyInt n) ->
  0 <= n < 84 * 2 ^ 47 ->
  gen_derived data = Ok (number_of_layers (n / 84)).
Proof.
  intros Hm Hl Hn Hrange. unfold gen_derived.
  rewrite Hm. simpl. rewrite Hl. simpl. rewrite Hn. simpl.
  change (6 * 14) with 84.
  rewrite (int_truediv_floor n 84 7) by (simpl; lia). reflexivity.
Qed.

(** A length of 252 bytes gives 3 layers. *)
Lemma gen_derived_layers_252 :
  gen_derived (layout_data 4096 252) = Ok (number_of_layers 3).
Proof.
  apply (gen_derived_layers (layout_data 4096 252)
           (PyDict {[ "_kb_layout" := MapFile.record 4096 252 ]})
           (MapFile.record 4096 252) 252);
    [reflexivity | reflexivity | reflexivity | lia].
Defined.

(** C8 as stated fails for a large length: for 84 * 2^47 + 83 the quotient
    is 2^47 + 83/84, the nearest floating-point number is 2^47 + 1, and
    that is the number of layers returned, one more than the integer
    quotient 2^47. *)
Lemma gen_derived_layers_large :
  gen_derived (layout_data 4096 (84 * 2 ^ 47 + 83))
  = Ok (number_of_layers (2 ^ 47 + 1))
  /\ (84 * 2 ^ 47 + 83) / 84 = 2 ^ 47
  /\ gen_derived (layout_data 4096 (84 * 2 ^ 47 + 83))
     <> Ok (number_of_layers ((84 * 2 ^ 47 + 83) / 84)).
Proof.
  split; [|split].
  - vm_compute. reflexivity.
  - reflexivity.
  - vm_compute. discriminate.
Qed.

(** ** Groups *)

Section Groups.
Import Re.
Local Arguments Ascii.eqb : simpl never.

Lemma star_is_Some cl k k' :
  (forall b cu cu' s, is_Some (k' b cu' s) -> is_Some (k b cu s)) ->
  forall s b cu cu',
    is_Some (star cl k' b cu' s) -> is_Some (star cl k b cu s).
Proof.
  intros Hk. induction s as [|c s IH]; intros b cu cu'; cbn [star].
  - apply Hk.
  - destruct (in_class cl c); [|apply Hk].
    destruct (star cl k' false (push cu' c) s) eqn:E'.
    + intros _. destruct (IH false (push cu c) (push cu' c)) as [r ->];
        [by rewrite E'|]. done.
    + intros H. destruct (star cl k false (push cu c) s); [done|].
      by eapply Hk.
Qed.

Lemma match_here_erase p : forall b cur caps cur' caps' s,
  is_Some (match_here (erase p) b cur' caps' s) ->
  is_Some (match_here p b cur caps s).
Proof.
  induction p as [|i p IH]; intros b cur caps cur' caps' s; [done|].
  destruct i; cbn [erase match_here].
  - destruct s as [|c s]; [done|]. destruct (in_class cl c); [|done].
    apply IH.
  - apply star_is_Some. intros. by eapply IH.
  - destruct s as [|c s]; [done|]. destruct (in_class cl c); [|done].
    apply star_is_Some. intros. by eapply IH.
  - destruct b; [apply IH|done].
  - destruct (_ || _); [apply IH|done].
  - apply IH.
  - apply IH.
Qed.

Lemma star_length cl k (n : nat) :
  (forall b cu s r, k b cu s = Some r -> length r = n) ->
  forall s b cu r, star cl k b cu s = Some r -> length r = n.
Proof.
  intros Hk. induction s as [|c s IH]; intros b cu r; cbn [star].
  - apply Hk.
  - destruct (in_class cl c); [|apply Hk].
    destruct (star cl k false (push cu c) s) eqn:E.
    + intros [= <-]. by eapply IH.
    + apply Hk.
Qed.

Lemma match_here_length p : forall b cur caps s r,
  match_here p b cur caps s = Some r ->
  length r = (length caps + groups p)%nat.
Proof.
  induction p as [|i p IH]; intros b cur caps s r.
  - intros [= <-]. cbn. lia.
  - destruct i; cbn [groups match_here].
    + destruct s as [|c s]; [done|]. destruct (in_class cl c); [|done].
      apply IH.
    + apply star_length. intros. by eapply IH.
    + destruct s as [|c s]; [done|]. destruct (in_class cl c); [|done].
      apply star_length. intros. by eapply IH.
    + destruct b; [apply IH|done].
    + destruct (_ || _); [apply IH|done].
    + apply IH.
    + intros H. apply IH in H. rewrite length_app in H. cbn in H. lia.
Qed.

Lemma search_from_erase p s : forall b,
  is_Some (search_from (erase p) b s) ->
  exists r, search_from p b s = Some r /\ length r = groups p.
Proof.
  induction s as [|c s IH]; intros b; cbn [search_from].
  - destruct (match_here (erase p) b None [] "") eqn:E; [|by intros [? [=]]].
    intros _.
    destruct (match_here_erase p b None [] None [] "") as [r Hr];
      [by rewrite E|].
    rewrite Hr. eexists. split; [done|].
    by apply match_here_length in Hr.
  - destruct (match_here p b None [] (String c s)) as [r|] eqn:Hr.
    + intros _. eexists. split; [done|].
      by apply match_here_length in Hr.
    + destruct (match_here (erase p) b None [] (String c s)) eqn:E.
      * destruct (match_here_erase p b None [] None [] (String c s))
          as [r Hr']; [by rewrite E|]. congruence.
      * apply IH.
Qed.

Lemma search_length p s r : search p s = Some r -> length r = groups p.
Proof.
  unfold search. generalize true.
  induction s as [|c s IH]; intros b; cbn [search_from].
  - destruct (match_here p b None [] "") eqn:E; [|done].
    intros [= <-]. by apply match_here_length in E.
  - destruct (match_here p b None [] (String c s)) eqn:E.
    + intros [= <-]. by apply match_here_length in E.
    + apply IH.
Qed.

(** The group of a search with a pattern of one group *)
Lemma group_one p s :
  groups p = 1%nat ->
  group (search p s) 1
  = match search p s with
    | Some (g :: _) => Ok g
    | _ => Raise AttributeError
    end.
Proof.
  intros Hp. destruct (search p s) as [r|] eqn:E; [|done].
  apply search_length in E. rewrite Hp in E. by destruct r.
Qed.

(** A line that matches the pattern of a function has a name. *)
Lemma kbfun_has_name l :
  is_Some (search SourceCode.re_kbfun l) ->
  exists name, group (search SourceCode.re_kbfun_name l) 1 = Ok name.
Proof.
  intros H.
  destruct (search_from_erase SourceCode.re_kbfun_name l true H)
    as (r & Hr & Hlen).
  unfold search. rewrite Hr.
  destruct r as [|name [|]]; try discriminate. by exists name.
Qed.

Lemma search_from_occurs c p s : forall b,
  is_Some (search_from (One (Chr c) :: p) b s) -> occurs c s = true.
Proof.
  induction s as [|a s IH]; intros b; cbn [search_from match_here occurs].
  - by intros [? [=]].
  - cbn [in_class]. destruct (Ascii.eqb c a); [done|]. apply IH.
Qed.

Lemma occurs_lstrip c s :
  isspace c = false -> occurs c s = true -> occurs c (lstrip s) = true.
Proof.
  intros Hc. induction s as [|a s IH]; [done|]. cbn [lstrip occurs].
  destruct (isspace a) eqn:Ha; [|done].
  destruct (Ascii.eqb_spec c a) as [->|]; [congruence|]. apply IH.
Qed.

Lemma occurs_rstrip c s :
  isspace c = false -> occurs c s = true -> occurs c (rstrip s) = true.
Proof.
  intros Hc. induction s as [|a s IH]; [done|]. cbn [rstrip occurs].
  destruct (Ascii.eqb_spec c a) as [->|].
  - intros _. rewrite Hc. destruct (rstrip s); cbn [occurs];
      by rewrite Ascii.eqb_refl.
  - intros H. specialize (IH H). destruct (rstrip s); [done|].
    cbn [occurs] in *. rewrite IH. apply orb_true_r.
Qed.

(** A line that matches the pattern of a function does not open a
    comment. *)
Lemma kbfun_not_opening l :
  is_Some (search SourceCode.re_kbfun l) -> strip l <> "/*".
Proof.
  intros H Hs. apply (search_from_occurs "v") in H.
  apply (occurs_lstrip "v") in H; [|done].
  apply (occurs_rstrip "v") in H; [|done].
  fold (strip l) in H. rewrite Hs in H. discriminate.
Qed.

End Groups.

(** ** Searching the lines of the layout matrices *)

Section Regex.
Import Re.
Local Arguments Ascii.eqb : simpl never.

Lemma append_nil (s : string) : "" +:+ s = s.
Proof. reflexivity. Qed.

Lemma append_cons (c : ascii) (s t : string) :
  String c s +:+ t = String c (s +:+ t).
Proof. reflexivity. Qed.

Lemma append_assoc (a b c : string) : (a +:+ b) +:+ c = a +:+ (b +:+ c).
Proof.
  induction a as [|x a IH]; [done|]. rewrite !append_cons. by f_equal.
Qed.

Lemma append_empty_r (a : string) : a +:+ "" = a.
Proof. induction a as [|x a IH]; [done|]. rewrite append_cons. by f_equal. Qed.

Lemma pushs_push cur c s : pushs (push cur c) s = pushs cur (String c s).
Proof. destruct cur as [g|]; simpl; [|done]. by rewrite append_assoc. Qed.

Lemma pushs_empty cur : pushs cur "" = cur.
Proof. destruct cur as [g|]; simpl; [|done]. by rewrite append_empty_r. Qed.

(** A run of characters of the class, up to a character outside of it, is
    taken whole when what follows the run in the pattern cannot start with
    a character of the class. *)
Lemma star_run cl k h rest bol cur :
  (forall b cu c s, in_class cl c = true -> k b cu (String c s) = None) ->
  all_in cl h = true -> stops cl rest = true ->
  star cl k bol cur (h +:+ rest)
  = k (if h is "" then bol else false) (pushs cur h) rest.
Proof.
  intros Hk. revert bol cur. induction h as [|c h IH]; intros bol cur Hh Hr.
  - rewrite append_nil, pushs_empty. destruct rest as [|c r]; [done|].
    simpl in *. by destruct (in_class cl c).
  - rewrite append_cons. simpl in *.
    apply andb_prop in Hh as [Hc Hh]. rewrite Hc.
    rewrite IH by done. rewrite pushs_push.
    assert (k (if h is "" then false else false) (pushs cur (String c h)) rest
            = k false (pushs cur (String c h)) rest) as -> by by destruct h.
    destruct (k false (pushs cur (String c h)) rest) eqn:E; [done|].
    by apply Hk.
Qed.

Lemma plus_run cl p h rest bol cur caps :
  (forall b cu c s, in_class cl c = true ->
                    match_here p b cu caps (String c s) = None) ->
  h <> "" -> all_in cl h = true -> stops cl rest = true ->
  match_here (Plus cl :: p) bol cur caps (h +:+ rest)
  = match_here p false (pushs cur h) caps rest.
Proof.
  intros Hk Hne Hh Hr. destruct h as [|c h]; [done|].
  rewrite append_cons. simpl in *. apply andb_prop in Hh as [Hc Hh]. rewrite Hc.
  rewrite (star_run cl (fun bol cur s => match_here p bol cur caps s))
    by done.
  rewrite pushs_push. by destruct h.
Qed.


Lemma hex_not_space c : is_Some (hex_digit c) -> isspace c = false.
Proof.
  destruct c as [[] [] [] [] [] [] [] []]; vm_compute;
    first [reflexivity | intros [? [=]]].
Qed.

Lemma hex_not_x c : is_Some (hex_digit c) -> Ascii.eqb c "x" = false.
Proof.
  destruct c as [[] [] [] [] [] [] [] []]; vm_compute;
    first [reflexivity | intros [? [=]]].
Qed.

Lemma space_not_0 c : isspace c = true -> Ascii.eqb c "0" = false.
Proof. destruct c as [[] [] [] [] [] [] [] []]; vm_compute; done. Qed.

Lemma space_not_x c : isspace c = true -> Ascii.eqb "x" c = false.
Proof. destruct c as [[] [] [] [] [] [] [] []]; vm_compute; done. Qed.

Lemma space_not_underscore c : isspace c = true -> Ascii.eqb "_" c = false.
Proof. destruct c as [[] [] [] [] [] [] [] []]; vm_compute; done. Qed.

Lemma all_hex_nonspace h : all_hex h = true -> all_in NonSpace h = true.
Proof.
  induction h as [|c h IH]; [done|]. simpl.
  intros [Hc Hh]%andb_prop. apply bool_decide_eq_true in Hc.
  by rewrite (hex_not_space c Hc), IH.
Qed.

Lemma re_matrix_items name :
  MapFile.re_matrix name
  = Open :: One (Chr "0") :: One (Chr "x") :: Plus NonSpace :: Close
      :: Plus Space :: (lit name ++ lit nl)%list.
Proof. reflexivity. Qed.

Lemma match_one cl p b cur caps c s :
  match_here (One cl :: p) b cur caps (String c s)
  = if in_class cl c then match_here p false (push cur c) caps s else None.
Proof. reflexivity. Qed.

Lemma match_open p b cur caps s :
  match_here (Open :: p) b cur caps s = match_here p b (Some "") caps s.
Proof. reflexivity. Qed.

Lemma match_close p b cur caps s :
  match_here (Close :: p) b cur caps s
  = match_here p b None (caps ++ [default "" cur]) s.
Proof. reflexivity. Qed.

Lemma match_plus_stop p b cur caps c s :
  in_class Space c = false ->
  match_here (Plus Space :: p) b cur caps (String c s) = None.
Proof. intros H. cbn [match_here]. by rewrite H. Qed.

Lemma match_needs_0x name b s :
  starts_0x s = false -> match_here (MapFile.re_matrix name) b None [] s = None.
Proof.
  rewrite re_matrix_items, match_open.
  destruct s as [|c s]; [done|]. rewrite match_one.
  cbn [starts_0x in_class]. rewrite (Ascii.eqb_sym c).
  destruct (Ascii.eqb "0" c); [|done]. cbn [andb].
  destruct s as [|c' s]; [done|]. rewrite match_one. cbn [in_class].
  rewrite (Ascii.eqb_sym c'). by intros ->.
Qed.

Lemma search_from_cons p b c s :
  search_from p b (String c s)
  = match match_here p b None [] (String c s) with
    | Some caps => Some caps
    | None => search_from p false s
    end.
Proof. reflexivity. Qed.

Lemma search_skip name s rest b :
  free_of_0x s rest = true ->
  search_from (MapFile.re_matrix name) b (s +:+ rest)
  = search_from (MapFile.re_matrix name) (if s is "" then b else false) rest.
Proof.
  revert b. induction s as [|c s IH]; intros b; [done|].
  rewrite append_cons. simpl free_of_0x.
  intros [Hc Hs]%andb_prop. apply negb_true_iff in Hc.
  rewrite search_from_cons, match_needs_0x by done.
  rewrite IH by done. by destruct s.
Qed.

Lemma free_app s1 s2 rest :
  free_of_0x (s1 +:+ s2) rest
  = free_of_0x s1 (s2 +:+ rest) && free_of_0x s2 rest.
Proof.
  induction s1 as [|c s1 IH]; [done|].
  rewrite append_cons. simpl. by rewrite IH, append_assoc, andb_assoc.
Qed.

Lemma free_space pad rest : all_in Space pad = true -> free_of_0x pad rest = true.
Proof.
  induction pad as [|c pad IH]; [done|]. cbn [all_in free_of_0x starts_0x in_class].
  intros [Hc Hp]%andb_prop. by rewrite IH, (space_not_0 c Hc).
Qed.

Lemma free_hex h rest :
  all_hex h = true -> stops (Chr "x") rest = true -> free_of_0x h rest = true.
Proof.
  intros Hh Hr. induction h as [|c h IH]; [done|].
  cbn [all_hex free_of_0x starts_0x] in *.
  apply andb_prop in Hh as [Hc Hh]. rewrite IH by done.
  rewrite andb_true_r. apply negb_true_iff.
  destruct h as [|c' h].
  - rewrite append_nil. destruct rest as [|c' rest]; [apply andb_false_r|].
    cbn [stops in_class] in Hr. apply negb_true_iff in Hr.
    rewrite (Ascii.eqb_sym c'), Hr. apply andb_false_r.
  - rewrite append_cons. cbn [all_hex] in Hh. apply andb_prop in Hh as [Hc' _].
    apply bool_decide_eq_true in Hc'. rewrite (hex_not_x c' Hc').
    apply andb_false_r.
Qed.

Lemma match_matrix_token name name' h pad' rest b :
  name ∈ matrix_names -> name' ∈ matrix_names ->
  all_hex h = true -> h <> "" -> all_in Space pad' = true -> pad' <> "" ->
  match_here (MapFile.re_matrix name) b None []
    (String "0" (String "x" (h +:+ pad' +:+ name' +:+ nl +:+ rest)))
  = if bool_decide (name = name') then Some ["0x" +:+ h] else None.
Proof.
  intros Hn Hn' Hh Hhne Hp Hpne. rewrite re_matrix_items.
  rewrite match_open, match_one.
  change (in_class (Chr "0") "0") with true. cbv iota.
  rewrite match_one. change (in_class (Chr "x") "x") with true. cbv iota.
  rewrite plus_run; try done.
  - rewrite match_close.
    assert (stops Space (name' +:+ nl +:+ rest) = true) as Hstop.
    { unfold matrix_names in Hn'.
      repeat (apply elem_of_cons in Hn' as [->|Hn']); try done.
      by apply elem_of_nil in Hn'. }
    rewrite plus_run; try done.
    + unfold matrix_names in Hn, Hn'.
      repeat (apply elem_of_cons in Hn as [->|Hn]);
        try (by apply elem_of_nil in Hn);
        repeat (apply elem_of_cons in Hn' as [->|Hn']);
        try (by apply elem_of_nil in Hn'); reflexivity.
    + intros b' cu c s Hc. cbn [in_class] in Hc.
      unfold matrix_names in Hn.
      repeat (apply elem_of_cons in Hn as [->|Hn]);
        try (by apply elem_of_nil in Hn);
        change (lit ?n ++ lit nl)%list
          with (One (Chr "_") :: (lit (drop_chars 1 n) ++ lit nl)%list);
        rewrite match_one; cbn [in_class];
        by rewrite (space_not_underscore c Hc).
  - intros b' cu c s Hc. rewrite match_close. apply match_plus_stop.
    cbn [in_class] in *. by apply negb_true_iff in Hc.
  - by apply all_hex_nonspace.
  - destruct pad' as [|c pad']; [done|]. rewrite append_cons.
    cbn [stops all_in in_class] in *.
    apply andb_prop in Hp as [-> _]. done.
Qed.

Lemma free_name name rest :
  name ∈ matrix_names -> free_of_0x name rest = true.
Proof.
  unfold matrix_names. intros Hn.
  repeat (apply elem_of_cons in Hn as [->|Hn]);
    try (by apply elem_of_nil in Hn); reflexivity.
Qed.

Lemma search_matrix_line name name' pad h pad' rest b :
  name ∈ matrix_names -> name' ∈ matrix_names -> matrix_line_ok pad h pad' ->
  search_from (MapFile.re_matrix name) b (matrix_line pad h pad' name' +:+ rest)
  = if bool_decide (name = name') then Some ["0x" +:+ h]
    else search_from (MapFile.re_matrix name) false rest.
Proof.
  intros Hn Hn' (Hp & Hh & Hhne & Hp' & Hpne'). unfold matrix_line.
  rewrite !append_assoc. rewrite search_skip by by apply free_space.
  change ("0x" +:+ ?s) with (String "0" (String "x" s)).
  rewrite search_from_cons, match_matrix_token by done.
  case_bool_decide; [done|].
  change (String "x" ?s) with ("x" +:+ s).
  rewrite <- !append_assoc. rewrite search_skip; [done|].
  rewrite !append_assoc.
  change ("x" +:+ ?s) with (String "x" s).
  cbn [free_of_0x starts_0x]. change (Ascii.eqb "x" "0") with false.
  cbn [andb negb]. rewrite !free_app.
  rewrite free_hex, free_space, free_name; try done.
  change (free_of_0x nl rest) with true.
  destruct pad' as [|c pad']; [done|]. rewrite !append_cons.
  cbn [stops all_in in_class] in *. apply andb_prop in Hp' as [Hc _].
  by rewrite (space_not_x c Hc).
Qed.

End Regex.

Section Layout.
Import Re.
Local Arguments Ascii.eqb : simpl never.

Lemma permutation_of_three {A} (a b c : A) (l : list A) :
  Permutation l [a; b; c] ->
  l = [a; b; c] \/ l = [a; c; b] \/ l = [b; a; c]
  \/ l = [b; c; a] \/ l = [c; a; b] \/ l = [c; b; a].
Proof.
  intros H. destruct (Permutation_vs_cons_inv H) as (l1 & l2 & ->).
  symmetry in H. apply Permutation_cons_app_inv in H.
  apply Permutation_length_2_inv in H.
  destruct l1 as [|x [|y [|z l1]]]; simpl in *;
    destruct H as [H|H]; simplify_eq; auto 10.
  all: destruct l1; discriminate.
Qed.

Lemma rstrip_nonspace s : all_in NonSpace s = true -> rstrip s = s.
Proof.
  induction s as [|c s IH]; [done|]. cbn [all_in in_class rstrip].
  intros [Hc Hs]%andb_prop. rewrite IH by done.
  apply negb_true_iff in Hc. rewrite Hc. by destruct s.
Qed.

Lemma hex_not_underscore c : is_Some (hex_digit c) -> Ascii.eqb c "_" = false.
Proof.
  destruct c as [[] [] [] [] [] [] [] []]; vm_compute;
    first [reflexivity | intros [? [=]]].
Qed.

Lemma hex_digits_value h acc :
  all_hex h = true -> hex_digits h false acc = Some (hex_value_from acc h).
Proof.
  revert acc. induction h as [|c h IH]; intros acc; [done|].
  cbn [all_hex hex_digits hex_value_from].
  intros [Hc Hh]%andb_prop. apply bool_decide_eq_true in Hc.
  rewrite (hex_not_underscore c Hc). destruct Hc as [d Hd]. rewrite Hd.
  by apply IH.
Qed.

Lemma hex_body_0x c h :
  is_Some (hex_digit c) ->
  hex_body (String "0" (String "x" (String c h)))
  = match hex_digit c with
    | Some d => hex_digits h false d
    | None => None
    end.
Proof.
  destruct c as [[] [] [] [] [] [] [] []]; intros H;
    first [reflexivity | vm_compute in H; by destruct H as [? [=]]].
Qed.

(** The value of a token [0x] followed by hexadecimal digits *)
Lemma int16_hex h :
  all_hex h = true -> h <> "" -> int16 ("0x" +:+ h) = Ok (hex_value h).
Proof.
  intros Hh Hne. unfold int16, strip.
  change ("0x" +:+ h) with (String "0" (String "x" h)).
  change (lstrip (String "0" (String "x" h))) with (String "0" (String "x" h)).
  rewrite rstrip_nonspace.
  2: { cbn [all_in in_class]. change (negb (isspace "0")) with true.
       change (negb (isspace "x")) with true. by apply all_hex_nonspace. }
  cbv iota beta.
  destruct h as [|c h]; [done|]. cbn [all_hex] in Hh.
  apply andb_prop in Hh as [Hc Hh]. apply bool_decide_eq_true in Hc.
  rewrite hex_body_0x by done. unfold hex_value. cbn [hex_value_from].
  destruct Hc as [d Hd]. rewrite Hd. rewrite hex_digits_value by done.
  reflexivity.
Qed.

Lemma in_matrix_names_1 : "_kb_layout" ∈ matrix_names.
Proof. unfold matrix_names. set_solver. Qed.
Lemma in_matrix_names_2 : "_kb_layout_press" ∈ matrix_names.
Proof. unfold matrix_names. set_solver. Qed.
Lemma in_matrix_names_3 : "_kb_layout_release" ∈ matrix_names.
Proof. unfold matrix_names. set_solver. Qed.

Lemma block_searches pad1 h1 pad1' pad2 h2 pad2' pad3 h3 pad3' blk :
  matrix_line_ok pad1 h1 pad1' -> matrix_line_ok pad2 h2 pad2' ->
  matrix_line_ok pad3 h3 pad3' ->
  Permutation blk (matrix_block pad1 h1 pad1' pad2 h2 pad2' pad3 h3 pad3') ->
  exists l1 l2 l3,
    blk = [l1; l2; l3]
    /\ search (MapFile.re_matrix "_kb_layout") (join [l1; l2; l3])
       = Some ["0x" +:+ h1]
    /\ search (MapFile.re_matrix "_kb_layout_press") (join [l1; l2; l3])
       = Some ["0x" +:+ h2]
    /\ search (MapFile.re_matrix "_kb_layout_release") (join [l1; l2; l3])
       = Some ["0x" +:+ h3].
Proof.
  intros Ok1 Ok2 Ok3 Hperm.
  pose proof in_matrix_names_1. pose proof in_matrix_names_2.
  pose proof in_matrix_names_3.
  apply permutation_of_three in Hperm.
  destruct Hperm as [->|[->|[->|[->|[->| ->]]]]];
    (eexists _, _, _; split; [reflexivity|]);
    unfold search, join; cbn [fold_right];
    repeat split;
    repeat (rewrite search_matrix_line by done;
            case_bool_decide; [try done|try done]).
Qed.

Lemma parse_layout_block trigger g L bl
    pad1 h1 pad1' pad2 h2 pad2' pad3 h3 pad3' blk f :
  group (search MapFile.re_length trigger) 1 = Ok g ->
  int16 g = Ok L -> int_truediv L 5 = Ok bl ->
  matrix_line_ok pad1 h1 pad1' -> matrix_line_ok pad2 h2 pad2' ->
  matrix_line_ok pad3 h3 pad3' ->
  Permutation blk (matrix_block pad1 h1 pad1' pad2 h2 pad2' pad3 h3 pad3') ->
  MapFile.parse_layout_matrices (blk ++ f) trigger
  = if negb (negb (hex_value h1 =? 0) && negb (hex_value h2 =? 0)
             && negb (hex_value h3 =? 0))
    then Raise (Exception MapFile.not_all_found)
    else Ok (layout_records (hex_value h1) (hex_value h2) (hex_value h3) bl,
             f).
Proof.
  intros Hg HL Hbl Ok1 Ok2 Ok3 Hperm.
  destruct (block_searches _ _ _ _ _ _ _ _ _ _ Ok1 Ok2 Ok3 Hperm)
    as (l1 & l2 & l3 & -> & S1 & S2 & S3).
  unfold MapFile.parse_layout_matrices.
  rewrite Hg. cbn [mbind result_bind]. rewrite HL. cbn [mbind result_bind].
  rewrite Hbl. cbn [mbind result_bind app next].
  rewrite S1, S2, S3. cbn [group pred lookup list_lookup mbind result_bind].
  destruct Ok1 as (_ & ? & ? & _), Ok2 as (_ & ? & ? & _),
    Ok3 as (_ & ? & ? & _).
  rewrite !int16_hex by done. cbn [mbind result_bind].
  reflexivity.
Qed.

(** The base length is the integer quotient for every length below
    5 * 2^51. *)
Lemma base_length_floor L :
  0 <= L < 5 * 2 ^ 51 -> int_truediv L 5 = Ok (L / 5).
Proof. intros H. apply (int_truediv_floor L 5 3); simpl; lia. Qed.

(** C7, as amended: when the hex length token of the trigger line has a
    value [L] below 5 * 2^51, and the next three lines are the lines of
    the three matrices in any order, each a hex token followed by the
    name, the records are: for [_kb_layout] the length [base_length],
    which is [L] divided by 5, rounded down, and for [_kb_layout_press]
    and [_kb_layout_release] the length [base_length * 2]; the position of
    each record is the value of the hex token of the line of its name.
    (The positions are not zero: see [layout_matrix_at_zero].) *)
Theorem layout_matrices_recorded trigger g L
    pad1 h1 pad1' pad2 h2 pad2' pad3 h3 pad3' blk f :
  group (search MapFile.re_length trigger) 1 = Ok g ->
  int16 g = Ok L -> 0 <= L < 5 * 2 ^ 51 ->
  matrix_line_ok pad1 h1 pad1' -> matrix_line_ok pad2 h2 pad2' ->
  matrix_line_ok pad3 h3 pad3' ->
  hex_value h1 <> 0 -> hex_value h2 <> 0 -> hex_value h3 <> 0 ->
  Permutation blk (matrix_block pad1 h1 pad1' pad2 h2 pad2' pad3 h3 pad3') ->
  MapFile.parse_layout_matrices (blk ++ f) trigger
  = Ok (layout_records (hex_value h1) (hex_value h2) (hex_value h3) (L / 5),
        f).
Proof.
  intros Hg HL Hrange Ok1 Ok2 Ok3 N1 N2 N3 Hperm.
  rewrite (parse_layout_block trigger g L (L / 5)
             pad1 h1 pad1' pad2 h2 pad2' pad3 h3 pad3');
    try done; [|by apply base_length_floor].
  apply Z.eqb_neq in N1, N2, N3. by rewrite N1, N2, N3.
Qed.

(** C7 as stated fails for a large length: the token [0x50000000000000005]
    is 5 * (2^64 + 1), and the base length recorded is 2^64, because the
    quotient 2^64 + 1 is not a floating-point number. *)
Lemma layout_length_large :
  MapFile.parse_layout_matrices
    [line "                0x00006a3e                _kb_layout";
     line "                0x00006b3a                _kb_layout_press";
     line "                0x00006d32                _kb_layout_release"]
    (line " .progmem.data  0x00006a3e  0x50000000000000005 layout.o")
  = Ok (layout_records 27198 27450 27954 (2 ^ 64), [])
  /\ group (search MapFile.re_length
              (line " .progmem.data  0x00006a3e  0x50000000000000005 layout.o"))
       1 = Ok "0x50000000000000005"
  /\ int16 "0x50000000000000005" = Ok (5 * (2 ^ 64 + 1))
  /\ 5 * (2 ^ 64 + 1) / 5 <> 2 ^ 64.
Proof.
  repeat split; try (vm_compute; reflexivity). vm_compute. discriminate.
Qed.

(** C10: when the three names are all there, each after its hex token, and
    one of the positions is zero, [parse_layout_matrices] raises "not all
    layout matrices were found": the test is on the three positions. *)
Theorem layout_matrix_at_zero trigger g L bl
    pad1 h1 pad1' pad2 h2 pad2' pad3 h3 pad3' blk f :
  group (search MapFile.re_length trigger) 1 = Ok g ->
  int16 g = Ok L -> int_truediv L 5 = Ok bl ->
  matrix_line_ok pad1 h1 pad1' -> matrix_line_ok pad2 h2 pad2' ->
  matrix_line_ok pad3 h3 pad3' ->
  hex_value h1 = 0 \/ hex_value h2 = 0 \/ hex_value h3 = 0 ->
  Permutation blk (matrix_block pad1 h1 pad1' pad2 h2 pad2' pad3 h3 pad3') ->
  MapFile.parse_layout_matrices (blk ++ f) trigger
  = Raise (Exception "parse_mapfile: not all layout matrices were found").
Proof.
  intros Hg HL Hbl Ok1 Ok2 Ok3 Hz Hperm.
  rewrite (parse_layout_block trigger g L bl
             pad1 h1 pad1' pad2 h2 pad2' pad3 h3 pad3') by done.
  destruct Hz as [->|[->| ->]]; cbn [Z.eqb negb andb];
    rewrite ?andb_false_r; reflexivity.
Qed.

(** A layout of 1260 bytes, with the lines of the matrices in another
    order *)
Lemma layout_matrices_recorded_1260 :
  MapFile.parse_layout_matrices
    ([line "                0x00006b3a                _kb_layout_press";
      line "                0x00006a3e                _kb_layout";
      line "                0x00006d32                _kb_layout_release"]
     ++ [line " .text          0x00000000     0x5fb4"])
    (line " .progmem.data  0x00006a3e      0x4ec build/layout.o")
  = Ok (layout_records 27198 27450 27954 (1260 / 5),
        [line " .text          0x00000000     0x5fb4"]).
Proof.
  apply (layout_matrices_recorded
           (line " .progmem.data  0x00006a3e      0x4ec build/layout.o")
           "0x4ec" 1260
           "                " "00006a3e" "                "
           "                " "00006b3a" "                "
           "                " "00006d32" "                ").
  - reflexivity.
  - reflexivity.
  - lia.
  - repeat split; vm_compute; congruence.
  - repeat split; vm_compute; congruence.
  - repeat split; vm_compute; congruence.
  - vm_compute. congruence.
  - vm_compute. congruence.
  - vm_compute. congruence.
  - apply perm_swap.
Defined.

(** The same layout with [_kb_layout] at address zero *)
Lemma layout_matrix_at_zero_example :
  MapFile.parse_layout_matrices
    ([line "                0x00000000                _kb_layout";
      line "                0x00006d32                _kb_layout_release";
      line "                0x00006b3a                _kb_layout_press"]
     ++ [])
    (line " .progmem.data  0x00000000      0x4ec build/layout.o")
  = Raise (Exception "parse_mapfile: not all layout matrices were found").
Proof.
  apply (layout_matrix_at_zero
           (line " .progmem.data  0x00000000      0x4ec build/layout.o")
           "0x4ec" 1260 252
           "                " "00000000" "                "
           "                " "00006b3a" "                "
           "                " "00006d32" "                ").
  - reflexivity.
  - reflexivity.
  - reflexivity.
  - repeat split; vm_compute; congruence.
  - repeat split; vm_compute; congruence.
  - repeat split; vm_compute; congruence.
  - left. reflexivity.
  - apply perm_skip, perm_swap.
Defined.

End Layout.

(** ** The map file *)

(** C6: the three lines of one keyboard function give its record. *)
Theorem parse_mapfile_kbfun_foo :
  MapFile.parse_mapfile
    [line ".text.kbfun_foo";
     line "0x00001000   0x00000020";
     line "0x00001000   kbfun_foo"]
  = Ok (PyDict {[ "keyboard-functions" :=
                    PyDict {[ "kbfun_foo" :=
                                PyDict {[ "position" := PyInt 4096;
                                          "length" := PyInt 32 ]} ]} ]})
  /\ MapFile.parse_mapfile
       [line ".text.kbfun_foo";
        line "0x00001000   0x00000020";
        "0x00001000   kbfun_foo"]
     = MapFile.parse_mapfile
         [line ".text.kbfun_foo";
          line "0x00001000   0x00000020";
          line "0x00001000   kbfun_foo"].
Proof. split; vm_compute; reflexivity. Qed.

(** When the search for one of the three names finds nothing, taking the
    group of its result raises [AttributeError]. *)
Lemma layout_matrix_missing trigger g L bl l1 l2 l3 f :
  Re.group (Re.search MapFile.re_length trigger) 1 = Ok g ->
  int16 g = Ok L -> int_truediv L 5 = Ok bl ->
  Re.search (MapFile.re_matrix "_kb_layout") (join [l1; l2; l3]) = None
  \/ Re.search (MapFile.re_matrix "_kb_layout_press") (join [l1; l2; l3])
     = None
  \/ Re.search (MapFile.re_matrix "_kb_layout_release") (join [l1; l2; l3])
     = None ->
  MapFile.parse_layout_matrices (l1 :: l2 :: l3 :: f) trigger
  = Raise AttributeError.
Proof.
  intros Hg HL Hbl Hnone. unfold MapFile.parse_layout_matrices.
  rewrite Hg. cbn [mbind result_bind]. rewrite HL. cbn [mbind result_bind].
  rewrite Hbl. cbn [mbind result_bind next].
  rewrite !group_one by reflexivity.
  destruct Hnone as [H|[H|H]]; rewrite H; cbn [mbind result_bind].
  - done.
  - by destruct (Re.search (MapFile.re_matrix "_kb_layout") _) as [[|? ?]|].
  - destruct (Re.search (MapFile.re_matrix "_kb_layout") _) as [[|? ?]|];
      try done.
    by destruct (Re.search (MapFile.re_matrix "_kb_layout_press") _)
      as [[|? ?]|].
Qed.

(** C3, on an input where the third matrix name is missing: the search for
    [_kb_layout_release] finds nothing, and taking the group of its result
    raises [AttributeError].  The test that would raise "not all layout
    matrices were found" comes later and is not reached. *)
Theorem parse_mapfile_missing_matrix :
  MapFile.parse_mapfile
    [line " .progmem.data   0x00006a3e   0x4ec layout.o";
     line "                0x00006a3e                _kb_layout";
     line "                0x00006b3a                _kb_layout_press";
     line "                0x00006d32                _kb_other"]
  = Raise AttributeError.
Proof. vm_compute. reflexivity. Qed.

(** ** Comments *)

(** A comment whose first line is the marker of a field *)
Lemma parse_lines_marker_first l lines :
  is_Some (Re.search SourceCode.re_field (strip l)) ->
  SourceCode.parse_lines (l :: lines) (SourceCode.PState ∅ None None)
  = Raise AttributeError.
Proof.
  intros H. cbn [SourceCode.parse_lines]. unfold SourceCode.parse_line.
  by rewrite bool_decide_eq_true_2.
Qed.


(** The same fields after an empty first line, which is how
    [read_comments] starts every comment (the line of the opening marker
    gives an empty line), are parsed as expected. *)
Lemma parse_comments_after_empty_line :
  SourceCode.parse_comments
    (text [""; "[name]"; "Foo"; "[description]"; "Bar."; "Baz";
           "[note]"; "One"; "[note]"; "Two"])
  = Ok (PyDict {[ "name" := PyStr "Foo";
                  "description" := PyStr "Bar.  Baz";
                  "notes" := PyList [PyStr "One"; PyStr "Two"] ]}).
Proof. vm_compute. reflexivity. Qed.

Section Comments.
Import SourceCode.

Implicit Types (o out : gmap string pyobj) (cs : list (option string * option string)).

(** The loop of [parse_comments], with the call after it, is the sequence
    of its calls of [add_field]. *)
Lemma parse_lines_closings lines st :
  (st' ← parse_lines lines st;
   add_field (p_output st') (p_field st') (p_value st'))
  = add_fields (closings lines (p_field st) (p_value st)) (p_output st).
Proof.
  revert st. induction lines as [|l lines IH]; intros [o f v].
  - cbn [parse_lines closings add_fields mbind result_bind
         p_output p_field p_value].
    by destruct (add_field o f v).
  - cbn [parse_lines closings mbind result_bind]. unfold parse_line.
    cbn [p_output p_field p_value].
    case_bool_decide.
    + cbn [add_fields mbind result_bind].
      destruct (add_field o f v) as [o'|e]; [|done].
      cbn [mbind result_bind]. by rewrite IH.
    + cbn [mbind result_bind]. by rewrite IH.
Qed.

Lemma parse_comments_closings text :
  parse_comments text = (out ← add_fields (sections text) ∅; Ok (PyDict out)).
Proof.
  unfold parse_comments, sections.
  pose proof (parse_lines_closings (split_nl text) (PState ∅ None None))
    as H.
  cbn [p_output p_field p_value] in H. rewrite <- H.
  destruct (parse_lines (split_nl text) (PState ∅ None None)) as [st|];
    [|done].
  cbn [mbind result_bind]. by destruct (add_field _ _ _).
Qed.

Lemma key_of_other f :
  f <> "name" -> f <> "description" ->
  key_of f <> "name" /\ key_of f <> "description".
Proof. unfold key_of. case_bool_decide; [done|]. done. Qed.

(** One call of [add_field] that closes a field *)
Lemma add_field_closes o f v out :
  lists_only o -> add_field o (Some f) (Some v) = Ok out ->
  out = if bool_decide (f = "name" \/ f = "description")
        then (if o !! f is Some _ then o else <[f := PyStr (strip v)]> o)
        else <[key_of f := PyList (items (o !! key_of f) ++ [PyStr (strip v)])]> o.
Proof.
  intros Ho. unfold add_field. cbn [mbind result_bind].
  case_bool_decide as Hf.
  - case_bool_decide as Hd.
    + apply not_elem_of_dom in Hd. rewrite Hd. by intros [= <-].
    + try apply dec_stable in Hd. apply elem_of_dom in Hd as [x Hx].
      rewrite Hx. by intros [= <-].
  - fold (key_of f).
    assert (f <> "name" /\ f <> "description") as [Hn Hd] by tauto.
    destruct (key_of_other f Hn Hd) as [Hkn Hkd].
    case_bool_decide as Hdom.
    + apply not_elem_of_dom in Hdom. rewrite lookup_insert_eq, Hdom.
      intros [= <-]. by rewrite insert_insert_eq.
    + try apply dec_stable in Hdom. apply elem_of_dom in Hdom as [x Hx].
      rewrite Hx. destruct (Ho _ _ Hkn Hkd Hx) as [l ->].
      by intros [= <-].
Qed.

Lemma add_field_lists o f v out :
  lists_only o -> add_field o (Some f) (Some v) = Ok out -> lists_only out.
Proof.
  intros Ho H. apply add_field_closes in H; [|done]. subst out.
  intros key x Hn Hd. case_bool_decide as Hf.
  - destruct (o !! f); [by apply Ho|].
    rewrite lookup_insert_ne by (intros ->; tauto). by apply Ho.
  - rewrite lookup_insert. case_decide; [|by apply Ho].
    intros [= <-]. eauto.
Qed.

Lemma add_fields_spec cs : forall o out,
  lists_only o -> add_fields cs o = Ok out ->
  (forall f, f = "name" \/ f = "description" ->
     out !! f = match o !! f with
                | Some x => Some x
                | None => PyStr <$> first_value f (closed cs)
                end)
  /\ (forall key, key <> "name" -> key <> "description" ->
        out !! key = match all_values key (closed cs) with
                     | [] => o !! key
                     | vs => Some (PyList (items (o !! key) ++ (PyStr <$> vs)))
                     end).
Proof.
  induction cs as [|[f v] cs IH]; intros o out Ho.
  - intros [= <-]. split.
    + intros f _. by destruct (o !! f).
    + done.
  - cbn [add_fields mbind result_bind].
    destruct (add_field o f v) as [o'|e] eqn:Hadd; [|done].
    cbn [mbind result_bind]. intros Hrest.
    destruct v as [v|]; [|by destruct f].
    destruct f as [f|].
    2: { cbn in Hadd. injection Hadd as <-. cbn [closed]. by apply IH. }
    pose proof (add_field_lists _ _ _ _ Ho Hadd) as Ho'.
    apply add_field_closes in Hadd; [|done].
    destruct (IH o' out Ho' Hrest) as [IHn IHk]. cbn [closed].
    split.
    + intros g Hg. rewrite (IHn g Hg). cbn [first_value]. subst o'.
      case_bool_decide as Hf.
      * destruct (o !! f) as [x|] eqn:Hx.
        -- destruct (o !! g) eqn:Hog; [done|].
           case_bool_decide; [congruence|done].
        -- rewrite lookup_insert. case_decide as Hfg.
           ++ subst g. rewrite Hx. by rewrite bool_decide_eq_true_2.
           ++ destruct (o !! g); [done|].
              by rewrite bool_decide_eq_false_2.
      * assert (f <> "name" /\ f <> "description") as [Hn Hd] by tauto.
        destruct (key_of_other f Hn Hd) as [Hkn Hkd].
        rewrite lookup_insert_ne by (destruct Hg; congruence).
        destruct (o !! g); [done|].
        rewrite bool_decide_eq_false_2; [done|]. intros ->. tauto.
    + intros key Hkn Hkd. rewrite (IHk key Hkn Hkd). cbn [all_values].
      subst o'. case_bool_decide as Hf.
      * assert (o !! key = (if o !! f is Some _ then o
                            else <[f:=PyStr (strip v)]> o) !! key) as <-.
        { destruct (o !! f); [done|].
          rewrite lookup_insert_ne; [done|]. intros ->. tauto. }
        rewrite bool_decide_eq_false_2 by tauto. done.
      * case_bool_decide as Hkey.
        -- destruct Hkey as (_ & _ & <-). rewrite lookup_insert_eq.
           destruct (all_values (key_of f) (closed cs)); cbn [items].
           ++ done.
           ++ by rewrite <- app_assoc.
        -- rewrite lookup_insert_ne; [done|]. intros ?. tauto.
Qed.

(** What [parse_comments] stores, whenever it returns: [name] and
    [description] are stored once, with the value of the first section of
    that name, and later sections of the name change nothing; under every
    other key ([notes] for the field [note]) there is the list of the
    values of all the sections of the field, in order. *)
Theorem parse_comments_fields text out :
  parse_comments text = Ok (PyDict out) ->
  (forall f, f = "name" \/ f = "description" ->
     out !! f = PyStr <$> first_value f (closed (sections text)))
  /\ (forall key, key <> "name" -> key <> "description" ->
        out !! key = match all_values key (closed (sections text)) with
                     | [] => None
                     | vs => Some (PyList (PyStr <$> vs))
                     end).
Proof.
  rewrite parse_comments_closings.
  destruct (add_fields (sections text) ∅) as [o|e] eqn:H; [|done].
  cbn. intros [= <-].
  destruct (add_fields_spec (sections text) ∅ o) as [Hn Hk]; [|done|].
  { intros key x _ _. by rewrite lookup_empty. }
  split.
  - intros f Hf. rewrite (Hn f Hf). by rewrite lookup_empty.
  - intros key H1 H2. rewrite (Hk key H1 H2). by rewrite lookup_empty.
Qed.

(** A comment with two sections [name], two sections [description], two
    notes and a field of the author's own *)
Lemma parse_comments_fields_example :
  let comments :=
    text [""; "[name]"; "First"; "[note]"; "One"; "[name]"; "Second";
          "[see]"; "kbfun_x"; "[note]"; "Two";
          "[description]"; "D."; "E"; "[description]"; "F"] in
  let out : gmap string pyobj :=
    {[ "name" := PyStr "First"; "description" := PyStr "D.  E";
       "notes" := PyList [PyStr "One"; PyStr "Two"];
       "see" := PyList [PyStr "kbfun_x"] ]} in
  SourceCode.parse_comments comments = Ok (PyDict out)
  /\ closed (sections comments)
     = [("name", "First"); ("note", "One"); ("name", "Second");
        ("see", "kbfun_x"); ("note", "Two"); ("description", "D.  E");
        ("description", "F")]
  /\ (forall f, f = "name" \/ f = "description" ->
        out !! f = PyStr <$> first_value f (closed (sections comments)))
  /\ (forall key, key <> "name" -> key <> "description" ->
        out !! key = match all_values key (closed (sections comments)) with
                     | [] => None
                     | vs => Some (PyList (PyStr <$> vs))
                     end).
Proof.
  intros comments out.
  split; [vm_compute; reflexivity|]. split; [vm_compute; reflexivity|].
  apply (parse_comments_fields comments out). vm_compute. reflexivity.
Defined.

(** C9, on a comment in which the second section [name] has no line of
    its own: when the next marker closes it, [value] is still [None], and
    [add_field] raises [AttributeError] on [value.strip()] instead of
    leaving the section aside.  (This is the failure of
    [parse_comments_marker_first]; [parse_comments_fields] is what holds
    when every section that is closed has a line.) *)
Theorem parse_comments_empty_section :
  parse_comments
    (text [""; "[name]"; "Foo"; "[name]"; "[note]"; "Bar"])
  = Raise AttributeError.
Proof. vm_compute. reflexivity. Qed.

(** The same comment in a source file *)
Lemma parse_source_code_empty_section :
  parse_source_code
    [("src/main.c",
      map line ["/*"; " * [name]"; " *   Foo"; " * [name]"; " * [note]";
                " *   Bar"; " */"; "void kbfun_a(void) {"; "}"])]
  = Raise AttributeError.
Proof. vm_compute. reflexivity. Qed.

End Comments.

(** ** The source files *)

(** C2 as stated fails: [kbfun_b] has no comment of its own, and is
    recorded with the comment block of [kbfun_a], which is still the most
    recently read one. *)
Lemma scan_keeps_comment_block :
  (output ← SourceCode.parse_source_code
     [("src/main.c",
       map line ["/*"; " * [name]"; " *   Foo"; " */";
                 "void kbfun_a(void) {"; "}"; "";
                 "void kbfun_b(void) {"; "}"])];
   comments_of output "kbfun_b")
  = Ok (PyDict {[ "name" := PyStr "Foo" ]})
  /\ PyDict {[ "name" := PyStr "Foo" ]} <> PyDict ∅.
Proof. split; [vm_compute; reflexivity|discriminate]. Qed.


Section Sources.
Import Re SourceCode.

Lemma parse_unbound f l name :
  group (search re_kbfun_name l) 1 = Ok name ->
  parse_keyboard_function f l "" = Ok (function_comments name (PyDict ∅)).
Proof. intros H. unfold parse_keyboard_function. by rewrite H. Qed.

(** The scan of lines among which no comment opens, from the start of a
    file *)
Lemma scan_unbound pre : forall post output fuel,
  Forall (fun l => strip l <> "/*") pre ->
  scan (length pre + fuel) (pre ++ post) "" output
  = scan fuel post "" (foldl unbound output pre).
Proof.
  induction pre as [|l pre IH]; intros post output fuel Hpre; [done|].
  apply Forall_cons in Hpre as [Hl Hpre].
  cbn [length app foldl Nat.add scan].
  rewrite bool_decide_eq_false_2 by done. unfold unbound at 2.
  case_bool_decide as Hm.
  - destruct (kbfun_has_name l Hm) as [name Hname].
    rewrite (parse_unbound _ _ name Hname), Hname.
    cbn [mbind result_bind]. by apply IH.
  - by apply IH.
Qed.

(** The output for a file with two functions and no comment *)
Lemma scan_without_comment_output :
  parse_source_code
    [("src/main.c",
      map line ["#include <stdint.h>"; "void kbfun_a(void) {"; "}";
                "void kbfun_b(void) {"; "}"])]
  = Ok (PyDict
          {[ "keyboard-functions" :=
               PyDict
                 {[ "kbfun_a" := PyDict {[ "comments" := PyDict ∅ ]};
                    "kbfun_b" := PyDict {[ "comments" := PyDict ∅ ]} ]} ]}).
Proof. vm_compute. reflexivity. Qed.

End Sources.

(** ** The bound on the loops

    The loops over the lines of a file never run out of fuel. *)

Section Fuel.
Import Re.

Lemma raised_bind {A B} (m : result A) (k : A -> result B) :
  raised m -> (forall a, m = Ok a -> raised (k a)) -> raised (m ≫= k).
Proof.
  unfold raised. intros Hm Hk. destruct m as [a|e].
  - by apply Hk.
  - intros [= ->]. by apply Hm.
Qed.

Lemma raised_int16 s : raised (int16 s).
Proof.
  unfold raised, int16.
  destruct (match strip s with
            | String "-" s' => (true, s')
            | String "+" s' => (false, s')
            | _ => (false, strip s)
            end) as [neg s'].
  by destruct (hex_body s').
Qed.

Lemma raised_group m i : raised (group m i).
Proof.
  unfold raised, group. destruct m as [caps|]; [|done].
  by destruct (caps !! pred i).
Qed.

Lemma raised_next f : raised (next f).
Proof. by destruct f. Qed.

Lemma raised_int_truediv a b : raised (int_truediv a b).
Proof.
  unfold raised, int_truediv, int_truediv_pos.
  destruct (b =? 0); [done|]. destruct (a =? 0); [done|].
  cbn. by destruct (2 ^ 1024 <=? _).
Qed.

Lemma next_length f l f' : next f = Ok (l, f') -> length f = S (length f').
Proof. destruct f; [done|]. by intros [= <- <-]. Qed.

Lemma map_kbfun_raised f l : raised (MapFile.parse_keyboard_function f l).
Proof.
  unfold MapFile.parse_keyboard_function.
  repeat first
    [ apply raised_bind;
      [ first [apply raised_next | apply raised_group | apply raised_int16]
      | intros ? _ ]
    | match goal with |- raised (let '(_, _) := ?p in _) => destruct p end
    | discriminate ].
Qed.

(** One step of a computation that returns *)
Ltac bind_step :=
  match goal with
  | |- mbind _ ?m = Ok _ -> _ =>
      let E := fresh "E" in
      destruct m as [[]|] eqn:E; [cbn [mbind result_bind]|discriminate]
  | |- mbind _ ?m = Ok _ -> _ =>
      let E := fresh "E" in
      destruct m eqn:E; [cbn [mbind result_bind]|discriminate]
  end.

Lemma map_kbfun_length f l found f' :
  MapFile.parse_keyboard_function f l = Ok (found, f') ->
  (length f' <= length f)%nat.
Proof.
  unfold MapFile.parse_keyboard_function. repeat bind_step.
  intros [= _ <-].
  repeat match goal with H : next _ = Ok _ |- _ =>
           apply next_length in H end.
  lia.
Qed.

Lemma map_layout_raised f l : raised (MapFile.parse_layout_matrices f l).
Proof.
  unfold MapFile.parse_layout_matrices.
  repeat first
    [ apply raised_bind;
      [ first [apply raised_next | apply raised_group | apply raised_int16
              | apply raised_int_truediv]
      | intros ? _ ]
    | match goal with |- raised (let '(_, _) := ?p in _) => destruct p end ].
  by destruct (negb _).
Qed.

Lemma map_layout_length f l found f' :
  MapFile.parse_layout_matrices f l = Ok (found, f') ->
  (length f' <= length f)%nat.
Proof.
  unfold MapFile.parse_layout_matrices. repeat bind_step.
  destruct (negb _); [done|]. intros [= _ <-].
  repeat match goal with H : next _ = Ok _ |- _ =>
           apply next_length in H end.
  lia.
Qed.

Lemma map_scan_raised fuel : forall f output,
  (length f <= fuel)%nat -> raised (MapFile.scan fuel f output).
Proof.
  induction fuel as [|fuel IH]; intros [|l f] output Hlen; try done.
  { cbn in Hlen. lia. }
  cbn [MapFile.scan]. cbn [length] in Hlen.
  case_bool_decide.
  - apply raised_bind; [apply map_kbfun_raised|].
    intros [found f'] Hf. apply map_kbfun_length in Hf. apply IH. lia.
  - case_bool_decide.
    + apply raised_bind; [apply map_layout_raised|].
      intros [found f'] Hf. apply map_layout_length in Hf. apply IH. lia.
    + apply IH. lia.
Qed.

(** With more fuel the result is the same. *)
Lemma map_scan_fuel fuel : forall fuel' f output,
  (length f <= fuel)%nat -> (length f <= fuel')%nat ->
  MapFile.scan fuel f output = MapFile.scan fuel' f output.
Proof.
  induction fuel as [|fuel IH]; intros fuel' [|l f] output H H';
    try (by destruct fuel').
  { cbn in H. lia. }
  destruct fuel' as [|fuel']; [cbn in H'; lia|].
  cbn [MapFile.scan]. cbn [length] in H, H'.
  case_bool_decide.
  - destruct (MapFile.parse_keyboard_function f l) as [[found f']|] eqn:E;
      [|done].
    cbn [mbind result_bind]. apply map_kbfun_length in E. apply IH; lia.
  - case_bool_decide.
    + destruct (MapFile.parse_layout_matrices f l) as [[found f']|] eqn:E;
        [|done].
      cbn [mbind result_bind]. apply map_layout_length in E. apply IH; lia.
    + apply IH; lia.
Qed.

(** [parse_mapfile] gives its loop enough fuel. *)
Theorem parse_mapfile_fuel lines :
  MapFile.parse_mapfile lines <> Raise OutOfFuel.
Proof. by apply map_scan_raised. Qed.

Lemma read_comments_from_raised f : forall l comments,
  raised (SourceCode.read_comments_from f l comments).
Proof.
  induction f as [|l' f IH]; intros l comments;
    cbn [SourceCode.read_comments_from]; case_bool_decide; try done.
Qed.

Lemma read_comments_from_length f : forall l comments comments' f',
  SourceCode.read_comments_from f l comments = Ok (comments', f') ->
  (length f' <= length f)%nat.
Proof.
  induction f as [|l' f IH]; intros l comments comments' f';
    cbn [SourceCode.read_comments_from]; case_bool_decide as Hl; try done.
  - by intros [= _ <-].
  - intros Hr. apply IH in Hr. cbn [length]. lia.
  - intros [= _ <-]. lia.
Qed.

Lemma add_field_raised output field value :
  raised (SourceCode.add_field output field value).
Proof.
  unfold raised, SourceCode.add_field.
  destruct value as [v|]; [|done]. cbn [mbind result_bind].
  destruct field as [field|]; [|done].
  repeat case_bool_decide; try done.
  all: match goal with
       | |- context [?m !! ?k] => destruct (m !! k) as [[]|]
       end; done.
Qed.

Lemma parse_lines_raised lines : forall st,
  raised (SourceCode.parse_lines lines st).
Proof.
  induction lines as [|l lines IH]; intros st; [done|].
  cbn [SourceCode.parse_lines]. apply raised_bind; [|intros; apply IH].
  unfold SourceCode.parse_line. case_bool_decide; [|done].
  apply raised_bind; [apply add_field_raised|done].
Qed.

Lemma parse_comments_raised comments :
  raised (SourceCode.parse_comments comments).
Proof.
  unfold SourceCode.parse_comments.
  apply raised_bind; [apply parse_lines_raised|]. intros st _.
  apply raised_bind; [apply add_field_raised|done].
Qed.

Lemma source_kbfun_raised f l comments :
  raised (SourceCode.parse_keyboard_function f l comments).
Proof.
  unfold SourceCode.parse_keyboard_function.
  apply raised_bind; [apply raised_group|]. intros name _.
  apply raised_bind; [apply parse_comments_raised|done].
Qed.

Lemma source_scan_raised fuel : forall f comments output,
  (length f <= fuel)%nat -> raised (SourceCode.scan fuel f comments output).
Proof.
  induction fuel as [|fuel IH]; intros [|l f] comments output Hlen;
    try done.
  { cbn in Hlen. lia. }
  cbn [SourceCode.scan]. cbn [length] in Hlen.
  case_bool_decide.
  - apply raised_bind; [apply read_comments_from_raised|].
    intros [comments' f'] Hf. apply read_comments_from_length in Hf.
    apply IH. lia.
  - case_bool_decide.
    + apply raised_bind; [apply source_kbfun_raised|].
      intros found _. apply IH. lia.
    + apply IH. lia.
Qed.

Lemma source_scan_fuel fuel : forall fuel' f comments output,
  (length f <= fuel)%nat -> (length f <= fuel')%nat ->
  SourceCode.scan fuel f comments output
  = SourceCode.scan fuel' f comments output.
Proof.
  induction fuel as [|fuel IH]; intros fuel' [|l f] comments output H H';
    try (by destruct fuel').
  { cbn in H. lia. }
  destruct fuel' as [|fuel']; [cbn in H'; lia|].
  cbn [SourceCode.scan]. cbn [length] in H, H'.
  case_bool_decide.
  - destruct (SourceCode.read_comments f l) as [[comments' f']|] eqn:E;
      [|done].
    cbn [mbind result_bind]. apply read_comments_from_length in E.
    apply IH; lia.
  - case_bool_decide.
    + destruct (SourceCode.parse_keyboard_function f l comments); [|done].
      cbn [mbind result_bind]. apply IH; lia.
    + apply IH; lia.
Qed.

Lemma scan_files_raised files : forall output,
  raised (SourceCode.scan_files files output).
Proof.
  induction files as [|[file_name f] files IH]; intros output; [done|].
  cbn [SourceCode.scan_files]. case_bool_decide; [apply IH|].
  apply raised_bind; [by apply source_scan_raised|]. intros; apply IH.
Qed.

(** [parse_source_code] gives its loops enough fuel. *)
Theorem parse_source_code_fuel files :
  SourceCode.parse_source_code files <> Raise OutOfFuel.
Proof. apply scan_files_raised. Qed.

End Fuel.

(** ** What a merge keeps *)

Section MoreDictionaries.

Implicit Types (a b v : pyobj) (da db d : gmap string pyobj).

Lemma within_dict db dr :
  within (PyDict db) (PyDict dr)
  <-> forall key y, db !! key = Some y ->
        exists x, dr !! key = Some x /\ within y x.
Proof.
  cbn [within].
  apply (map_fold_weak_ind
           (fun (P : Prop) (db : gmap string pyobj) =>
              P <-> forall key y, db !! key = Some y ->
                      exists x, dr !! key = Some x /\ within y x)).
  - split; [|done]. intros _ key y. by rewrite lookup_empty.
  - intros i y m P Hi IH. split.
    + intros [Hy HP] key z. rewrite lookup_insert. case_decide.
      * subst. by intros [= <-].
      * by apply IH.
    + intros H. split.
      * apply H. by rewrite lookup_insert_eq.
      * apply IH. intros key z Hz. apply H.
        rewrite lookup_insert_ne; [done|]. intros <-. congruence.
Qed.

Lemma within_refl b : within b b.
Proof.
  induction b as [b Hb|d IH] using pyobj_dict_ind.
  - destruct b; try done. by destruct (Hb d).
  - apply within_dict. intros key y Hy. exists y. split; [done|].
    by apply (IH key).
Qed.

(** Everything in the addend is in the result. *)
Theorem dict_merge_within a b : within b (dict_merge a b).
Proof.
  revert a. induction b as [b Hb|db IH] using pyobj_dict_ind; intros a.
  - rewrite dict_merge_leaf_r by done. apply within_refl.
  - destruct a as [| | | |da];
      try (rewrite dict_merge_leaf_l by (intros; discriminate);
           apply within_refl).
    destruct (dict_merge_dict da db) as (m & -> & Hm).
    apply within_dict. intros key y Hy. rewrite Hm. unfold merged.
    rewrite Hy. eexists. split; [done|].
    destruct (da !! key); [by apply (IH key)|apply within_refl].
Qed.

Lemma dict_merge_empty_l d : dict_merge (PyDict ∅) (PyDict d) = PyDict d.
Proof.
  destruct (dict_merge_dict ∅ d) as (m & -> & Hm). f_equal.
  apply map_eq. intros key. rewrite Hm. unfold merged.
  rewrite lookup_empty. by destruct (d !! key).
Qed.

(** The empty dictionary is neutral on both sides among dictionaries. *)
Theorem dict_merge_empty d :
  dict_merge (PyDict ∅) (PyDict d) = PyDict d
  /\ dict_merge (PyDict d) (PyDict ∅) = PyDict d.
Proof.
  split; [apply dict_merge_empty_l|].
  - destruct (dict_merge_dict d ∅) as (m & -> & Hm). f_equal.
    apply map_eq. intros key. rewrite Hm. unfold merged.
    by rewrite lookup_empty.
Qed.

(** The value under each key after a merge of two dictionaries *)
Theorem dict_merge_lookup da db :
  exists m, dict_merge (PyDict da) (PyDict db) = PyDict m
    /\ forall key,
         m !! key = match da !! key, db !! key with
                    | Some x, Some y => Some (dict_merge x y)
                    | None, Some y => Some y
                    | ox, None => ox
                    end.
Proof.
  destruct (dict_merge_dict da db) as (m & Hm & Hl). exists m.
  split; [done|]. intros key. rewrite Hl. unfold merged.
  by destruct (da !! key), (db !! key).
Qed.

End MoreDictionaries.

(** ** The scan of the map file *)

Section MapFileMore.
Import Re MapFile.

Lemma map_scan_plain pre : forall rest output fuel,
  Forall plain_line pre ->
  scan (length pre + fuel) (pre ++ rest) output = scan fuel rest output.
Proof.
  induction pre as [|l pre IH]; intros rest output fuel Hpre; [done|].
  apply Forall_cons in Hpre as [[H1 H2] Hpre].
  cbn [length app Nat.add scan]. rewrite H1, H2.
  rewrite !bool_decide_eq_false_2 by (by intros [? [=]]). by apply IH.
Qed.

(** Lines that start nothing have no effect. *)
Theorem parse_mapfile_plain pre rest :
  Forall plain_line pre ->
  parse_mapfile (pre ++ rest) = parse_mapfile rest.
Proof.
  intros Hpre. unfold parse_mapfile. rewrite length_app.
  by apply map_scan_plain.
Qed.

Lemma parse_mapfile_plain_example :
  parse_mapfile
    ([line "Archive member included because of file (symbol)";
      line " .text          0x00000000     0x5fb4"]
     ++ [line " .text.kbfun_foo"; line "  0x00001000   0x00000020 a.o";
         line "  0x00001000   kbfun_foo"])
  = parse_mapfile
      [line " .text.kbfun_foo"; line "  0x00001000   0x00000020 a.o";
       line "  0x00001000   kbfun_foo"].
Proof.
  apply parse_mapfile_plain. repeat constructor; vm_compute; reflexivity.
Defined.

(** A file that ends on the first line of a keyboard function: the line
    after it is asked for, and there is none. *)
Theorem parse_mapfile_ends_in_function pre l :
  Forall plain_line pre ->
  is_Some (search re_kbfun_trigger l) ->
  parse_mapfile (pre ++ [l]) = Raise StopIteration.
Proof.
  intros Hpre Hl. unfold parse_mapfile. rewrite length_app.
  rewrite map_scan_plain by done. cbn [length scan].
  by rewrite bool_decide_eq_true_2.
Qed.

Lemma parse_mapfile_ends_in_function_example :
  parse_mapfile ([line " .text          0x00000000     0x5fb4"]
                 ++ [line " .text.kbfun_foo"])
  = Raise StopIteration.
Proof.
  apply parse_mapfile_ends_in_function.
  - repeat constructor; vm_compute; reflexivity.
  - vm_compute. eauto.
Defined.

Lemma record_merge p l p' l' :
  dict_merge (record p l) (record p' l') = record p' l'.
Proof.
  unfold record.
  destruct (dict_merge_dict
              {[ "position" := PyInt p; "length" := PyInt l ]}
              {[ "position" := PyInt p'; "length" := PyInt l' ]})
    as (m & -> & Hm).
  f_equal. apply map_eq. intros key. rewrite Hm. unfold merged.
  destruct (decide (key = "position")) as [->|];
    [by simplify_map_eq|].
  destruct (decide (key = "length")) as [->|]; by simplify_map_eq.
Qed.

Lemma map_functions_merge x name p l :
  map_functions x ->
  map_functions (dict_merge x (PyDict {[ name := record p l ]})).
Proof.
  intros (fs & -> & Hfs).
  destruct (dict_merge_dict fs {[ name := record p l ]}) as (m & -> & Hm).
  exists m. split; [done|]. intros n y. rewrite Hm. unfold merged.
  destruct (decide (n = name)) as [->|].
  - rewrite lookup_singleton_eq.
    destruct (fs !! name) as [z|] eqn:Hz.
    + destruct (Hfs _ _ Hz) as (p0 & l0 & ->). rewrite record_merge.
      intros [= <-]. eauto.
    + intros [= <-]. eauto.
  - rewrite lookup_singleton_ne by done. apply Hfs.
Qed.

Lemma map_matrices_merge x y :
  map_matrices x -> map_matrices y -> dict_merge x y = y.
Proof.
  intros (p1 & p2 & p3 & bl & _ & _ & _ & ->)
         (q1 & q2 & q3 & cl & _ & _ & _ & ->).
  match goal with
  | |- dict_merge (PyDict ?da) (PyDict ?db) = _ =>
      destruct (dict_merge_dict da db) as (m & -> & Hm)
  end.
  f_equal. apply map_eq. intros key. rewrite Hm. unfold merged.
  destruct (decide (key = "_kb_layout")) as [->|].
  { rewrite !lookup_insert_eq. by rewrite record_merge. }
  rewrite !(lookup_insert_ne _ "_kb_layout") by done.
  destruct (decide (key = "_kb_layout_press")) as [->|].
  { rewrite !lookup_insert_eq. by rewrite record_merge. }
  rewrite !(lookup_insert_ne _ "_kb_layout_press") by done.
  destruct (decide (key = "_kb_layout_release")) as [->|].
  { rewrite !lookup_singleton_eq. by rewrite record_merge. }
  by rewrite !lookup_singleton_ne.
Qed.

Lemma map_output_functions output name p l :
  map_output output ->
  map_output
    (dict_merge output
       (PyDict {[ "keyboard-functions" :=
                    PyDict {[ name := record p l ]} ]})).
Proof.
  intros (d & -> & Hd).
  match goal with
  | |- map_output (dict_merge (PyDict ?da) (PyDict ?db)) =>
      destruct (dict_merge_dict da db) as (m & -> & Hm)
  end.
  exists m. split; [done|]. intros key x. rewrite Hm. unfold merged.
  destruct (decide (key = "keyboard-functions")) as [->|].
  - rewrite lookup_singleton_eq. intros [= <-]. left. split; [done|].
    destruct (d !! "keyboard-functions") as [z|] eqn:Hz.
    + destruct (Hd _ _ Hz) as [[_ Hf]|[[=] _]].
      by apply map_functions_merge.
    + exists {[ name := record p l ]}. split; [done|].
      intros n y. rewrite lookup_singleton. case_decide; [|done].
      intros [= <-]. eauto.
  - rewrite lookup_singleton_ne by done. apply Hd.
Qed.

Lemma map_output_matrices output x :
  map_output output -> map_matrices x ->
  map_output (dict_merge output (PyDict {[ "layout-matrices" := x ]})).
Proof.
  intros (d & -> & Hd) Hx.
  match goal with
  | |- map_output (dict_merge (PyDict ?da) (PyDict ?db)) =>
      destruct (dict_merge_dict da db) as (m & -> & Hm)
  end.
  exists m. split; [done|]. intros key y. rewrite Hm. unfold merged.
  destruct (decide (key = "layout-matrices")) as [->|].
  - rewrite lookup_singleton_eq. intros [= <-]. right. split; [done|].
    destruct (d !! "layout-matrices") as [z|] eqn:Hz; [|done].
    destruct (Hd _ _ Hz) as [[[=] _]|[_ Hz']].
    by rewrite (map_matrices_merge z x).
  - rewrite lookup_singleton_ne by done. apply Hd.
Qed.

Lemma parse_keyboard_function_shape f l found f' :
  parse_keyboard_function f l = Ok (found, f') ->
  exists name p len,
    found = PyDict {[ "keyboard-functions" :=
                        PyDict {[ name := record p len ]} ]}.
Proof.
  unfold parse_keyboard_function.
  repeat match goal with
  | |- mbind _ ?m = Ok _ -> _ =>
      let E := fresh "E" in
      destruct m as [[? ?]|] eqn:E; [cbn [mbind result_bind]|discriminate]
  | |- mbind _ ?m = Ok _ -> _ =>
      let E := fresh "E" in
      destruct m eqn:E; [cbn [mbind result_bind]|discriminate]
  end.
  intros H. inversion H; subst. eauto.
Qed.

Lemma parse_layout_matrices_shape f l found f' :
  parse_layout_matrices f l = Ok (found, f') ->
  exists x, map_matrices x /\ found = PyDict {[ "layout-matrices" := x ]}.
Proof.
  unfold parse_layout_matrices.
  repeat match goal with
  | |- mbind _ ?m = Ok _ -> _ =>
      let E := fresh "E" in
      destruct m as [[? ?]|] eqn:E; [cbn [mbind result_bind]|discriminate]
  | |- mbind _ ?m = Ok _ -> _ =>
      let E := fresh "E" in
      destruct m eqn:E; [cbn [mbind result_bind]|discriminate]
  end.
  match goal with
  | |- context [negb (negb (?a =? 0) && negb (?b =? 0) && negb (?c =? 0))] =>
      destruct (Z.eqb_spec a 0), (Z.eqb_spec b 0), (Z.eqb_spec c 0);
      cbn [negb andb]; try discriminate
  end.
  intros H. inversion H; subst. eexists. split; [|done].
  do 4 eexists. repeat split; done.
Qed.

Lemma map_scan_output fuel : forall f output out,
  map_output output -> scan fuel f output = Ok out -> map_output out.
Proof.
  induction fuel as [|fuel IH]; intros [|l f] output out Hout;
    cbn [scan]; try (by intros [= <-]); try done.
  case_bool_decide.
  - destruct (parse_keyboard_function f l) as [[found f']|] eqn:E; [|done].
    cbn [mbind result_bind].
    destruct (parse_keyboard_function_shape _ _ _ _ E)
      as (name & p & len & ->).
    apply IH. by apply map_output_functions.
  - case_bool_decide.
    + destruct (parse_layout_matrices f l) as [[found f']|] eqn:E; [|done].
      cbn [mbind result_bind].
      destruct (parse_layout_matrices_shape _ _ _ _ E) as (x & Hx & ->).
      apply IH. by apply map_output_matrices.
    + by apply IH.
Qed.

Lemma layout_matrix_missing_example :
  parse_layout_matrices
    (line "                0x00006a3e                _kb_layout"
       :: line "                0x00006b3a                _kb_layout_press"
       :: line "                0x00006d32                _kb_other"
       :: [line " .text          0x00000000     0x5fb4"])
    (line " .progmem.data  0x00006a3e      0x4ec build/layout.o")
  = Raise AttributeError.
Proof.
  apply (layout_matrix_missing
           (line " .progmem.data  0x00006a3e      0x4ec build/layout.o")
           "0x4ec" 1260 252).
  - reflexivity.
  - reflexivity.
  - vm_compute. reflexivity.
  - right. right. vm_compute. reflexivity.
Defined.

Lemma map_output_empty : map_output (PyDict ∅).
Proof. exists ∅. split; [done|]. intros key x. by rewrite lookup_empty. Qed.

(** The shape of what [parse_mapfile] returns *)
Theorem parse_mapfile_output lines out :
  parse_mapfile lines = Ok out -> map_output out.
Proof. apply map_scan_output, map_output_empty. Qed.

Lemma parse_mapfile_output_example :
  map_output
    (PyDict {[ "keyboard-functions" :=
                 PyDict {[ "kbfun_press" := record 9246 28 ]};
               "layout-matrices" :=
                 PyDict {[ "_kb_layout" := record 27198 252;
                           "_kb_layout_press" := record 27450 504;
                           "_kb_layout_release" := record 27954 504 ]} ]}).
Proof.
  apply (parse_mapfile_output
           (map line
              [" .text.kbfun_press";
               "                0x0000241e       0x1c build/main.o";
               "                0x0000241e                kbfun_press";
               " .progmem.data  0x00006a3e      0x4ec build/layout.o";
               "                0x00006a3e                _kb_layout";
               "                0x00006b3a                _kb_layout_press";
               "                0x00006d32                _kb_layout_release"])).
  vm_compute. reflexivity.
Defined.

End MapFileMore.

(** ** The lines of a keyboard function *)

Section FunctionLines.
Import Re MapFile.
Local Arguments Ascii.eqb : simpl never.

(** A run of characters of the class is taken whole when the rest of the
    pattern matches after it. *)
Lemma star_greedy cl k h rest bol cur :
  all_in cl h = true -> stops cl rest = true ->
  is_Some (k (if h is "" then bol else false) (pushs cur h) rest) ->
  star cl k bol cur (h +:+ rest)
  = k (if h is "" then bol else false) (pushs cur h) rest.
Proof.
  revert bol cur. induction h as [|c h IH]; intros bol cur Hh Hr Hk.
  - rewrite append_nil, pushs_empty in *. destruct rest as [|c r]; [done|].
    cbn [star stops] in *. by destruct (in_class cl c).
  - rewrite append_cons. cbn [star all_in] in *.
    apply andb_prop in Hh as [Hc Hh]. rewrite Hc.
    rewrite <- pushs_push in *.
    assert (is_Some (k (if h is "" then false else false)
                       (pushs (push cur c) h) rest)) as Hk'
      by (by destruct h).
    rewrite IH by done. destruct Hk' as [r Hr']. rewrite Hr'.
    by destruct h.
Qed.

Lemma plus_greedy cl p h rest bol cur caps :
  h <> "" -> all_in cl h = true -> stops cl rest = true ->
  is_Some (match_here p false (pushs cur h) caps rest) ->
  match_here (Plus cl :: p) bol cur caps (h +:+ rest)
  = match_here p false (pushs cur h) caps rest.
Proof.
  intros Hne Hh Hr Hk. destruct h as [|c h]; [done|].
  rewrite append_cons. cbn [match_here all_in] in *.
  apply andb_prop in Hh as [Hc Hh]. rewrite Hc.
  rewrite <- pushs_push in *.
  rewrite (star_greedy cl (fun bol cur s => match_here p bol cur caps s));
    try done; by destruct h.
Qed.

Lemma match_plus_outside cl p b cur caps c s :
  in_class cl c = false ->
  match_here (Plus cl :: p) b cur caps (String c s) = None.
Proof. intros H. cbn [match_here]. by rewrite H. Qed.

Lemma search_skip_0x p s rest b :
  (forall b' t, starts_0x t = false -> match_here p b' None [] t = None) ->
  free_of_0x s rest = true ->
  search_from p b (s +:+ rest)
  = search_from p (if s is "" then b else false) rest.
Proof.
  intros Hp. revert b. induction s as [|c s IH]; intros b; [done|].
  rewrite append_cons. cbn [free_of_0x].
  intros [Hc Hs]%andb_prop. apply negb_true_iff in Hc.
  rewrite search_from_cons, Hp by done.
  rewrite IH by done. by destruct s.
Qed.

Lemma needs_0x p b cur caps s :
  starts_0x s = false ->
  match_here (One (Chr "0") :: One (Chr "x") :: p) b cur caps s = None.
Proof.
  destruct s as [|c s]; [done|]. rewrite match_one.
  cbn [starts_0x in_class]. rewrite (Ascii.eqb_sym c).
  destruct (Ascii.eqb "0" c); [|done]. cbn [andb].
  destruct s as [|c' s]; [done|]. rewrite match_one. cbn [in_class].
  rewrite (Ascii.eqb_sym c'). by intros ->.
Qed.

Lemma space_then_0 c s : in_class Space c = true ->
  forall p b cur caps,
    match_here (Open :: One (Chr "0") :: p) b cur caps (String c s) = None.
Proof.
  intros Hc p b cur caps. rewrite match_open, match_one. cbn [in_class] in *.
  by rewrite Ascii.eqb_sym, (space_not_0 c Hc).
Qed.

Lemma stops_space_pad pad rest :
  all_in Space pad = true -> pad <> "" ->
  stops NonSpace (pad +:+ rest) = true.
Proof.
  intros Hp Hne. destruct pad as [|c pad]; [done|]. rewrite append_cons.
  cbn [stops all_in in_class] in *. apply andb_prop in Hp as [-> _]. done.
Qed.

(** The two tokens of the line of the position and the length *)
Lemma search_position_line pad h1 pad' h2 tail :
  position_line_ok pad h1 pad' h2 tail ->
  search re_position_length (position_line pad h1 pad' h2 tail)
  = Some ["0x" +:+ h1; "0x" +:+ h2].
Proof.
  intros (Hp & Hh1 & Hne1 & Hp' & Hpne' & Hh2 & Hne2 & Htail).
  unfold search, position_line.
  change re_position_length
    with (Open :: One (Chr "0") :: One (Chr "x") :: Plus NonSpace :: Close
            :: Plus Space :: Open :: One (Chr "0") :: One (Chr "x")
            :: Plus NonSpace :: [Close]).
  rewrite search_skip_0x.
  2: { intros b' t Ht. rewrite match_open. by apply needs_0x. }
  2: by apply free_space.
  change ("0x" +:+ ?s) with (String "0" (String "x" s)).
  change ("0x" +:+ ?s) with (String "0" (String "x" s)).
  rewrite search_from_cons.
  rewrite match_open, match_one.
  change (in_class (Chr "0") "0") with true. cbv iota.
  rewrite match_one. change (in_class (Chr "x") "x") with true. cbv iota.
  rewrite plus_run; try done.
  2: { intros b' cu c s Hc. rewrite match_close. apply match_plus_outside.
       cbn [in_class] in *. by apply negb_true_iff in Hc. }
  2: by apply all_hex_nonspace.
  2: by apply stops_space_pad.
  rewrite match_close. rewrite plus_run; try done.
  2: { intros b' cu c s Hc. by apply space_then_0. }
  rewrite match_open, match_one.
  change (in_class (Chr "0") "0") with true. cbv iota.
  rewrite match_one. change (in_class (Chr "x") "x") with true. cbv iota.
  rewrite plus_greedy; try done.
  by apply all_hex_nonspace.
Qed.

(** The name on the line of the name *)
Lemma search_name_line pad h pad' name tail :
  name_line_ok pad h pad' name tail ->
  search re_name (name_line pad h pad' name tail) = Some [name].
Proof.
  intros (Hp & Hh & Hne & Hp' & Hpne' & Hn & Hnne & Htail).
  unfold search, name_line.
  change re_name
    with (One (Chr "0") :: One (Chr "x") :: Plus NonSpace :: Plus Space
            :: Open :: Plus NonSpace :: [Close]).
  rewrite search_skip_0x.
  2: { intros b' t Ht. by apply needs_0x. }
  2: by apply free_space.
  change ("0x" +:+ ?s) with (String "0" (String "x" s)).
  rewrite search_from_cons.
  rewrite match_one.
  change (in_class (Chr "0") "0") with true. cbv iota.
  rewrite match_one. change (in_class (Chr "x") "x") with true. cbv iota.
  rewrite plus_run; try done.
  2: { intros b' cu c s Hc. apply match_plus_outside.
       cbn [in_class] in *. by apply negb_true_iff in Hc. }
  2: by apply all_hex_nonspace.
  2: by apply stops_space_pad.
  rewrite plus_run; try done.
  2: { intros b' cu c s Hc. rewrite match_open. apply match_plus_outside.
       cbn [in_class] in *. by rewrite Hc. }
  2: { destruct name as [|c name]; [done|]. rewrite append_cons.
       cbn [stops all_in in_class] in *. by apply andb_prop in Hn as [Hc _]. }
  rewrite match_open. rewrite plus_greedy; try done.
Qed.

(** The record of a keyboard function of the map file: its position and
    its length are the values of the two hex tokens of the first of the
    two lines, and its name is the token after the position on the
    second. *)
Theorem map_function_record pad1 h1 pad1' h2 tail1 pad2 h3 pad2' name tail2
    f l :
  position_line_ok pad1 h1 pad1' h2 tail1 ->
  name_line_ok pad2 h3 pad2' name tail2 ->
  parse_keyboard_function
    (position_line pad1 h1 pad1' h2 tail1
       :: name_line pad2 h3 pad2' name tail2 :: f) l
  = Ok (PyDict {[ "keyboard-functions" :=
                    PyDict {[ name := record (hex_value h1) (hex_value h2) ]} ]},
        f).
Proof.
  intros Hpos Hname. unfold parse_keyboard_function.
  cbn [next mbind result_bind].
  rewrite search_position_line by done.
  cbn [group pred lookup list_lookup mbind result_bind].
  destruct Hpos as (_ & ? & ? & _ & _ & ? & ? & _).
  rewrite !int16_hex by done. cbn [mbind result_bind].
  by rewrite search_name_line.
Qed.

Lemma map_function_record_example :
  parse_keyboard_function
    (position_line "                " "0000241e" "       " "1c"
       (line " build/main.o")
       :: name_line "                " "0000241e" "                "
            "kbfun_press" nl :: [])
    (line " .text.kbfun_press")
  = Ok (PyDict {[ "keyboard-functions" :=
                    PyDict {[ "kbfun_press" :=
                                record (hex_value "0000241e")
                                  (hex_value "1c") ]} ]},
        []).
Proof.
  apply map_function_record.
  - repeat split; vm_compute; congruence.
  - repeat split; vm_compute; congruence.
Defined.

End FunctionLines.

(** ** Comment blocks *)

Section SourcesMore.
Import Re SourceCode.

Lemma read_comments_from_closer f l comments :
  strip l = "*/" -> read_comments_from f l comments = Ok (comments, f).
Proof.
  intros Hl.
  destruct f; cbn [read_comments_from];
    by rewrite bool_decide_eq_false_2 by (by intros ?).
Qed.

Lemma read_comments_from_block body : forall closer rest l comments,
  strip l <> "*/" -> Forall (fun l => strip l <> "*/") body ->
  strip closer = "*/" ->
  read_comments_from (body ++ closer :: rest) l comments
  = Ok (comments +:+ join (map comment_line (l :: body)), rest).
Proof.
  induction body as [|l' body IH]; intros closer rest l comments Hl Hbody Hc.
  - cbn [app read_comments_from map join fold_right].
    rewrite bool_decide_eq_true_2 by done.
    rewrite read_comments_from_closer by done.
    unfold comment_line. by rewrite append_empty_r.
  - apply Forall_cons in Hbody as [Hl' Hbody].
    cbn [app read_comments_from]. rewrite bool_decide_eq_true_2 by done.
    rewrite IH by done. cbn [map join fold_right].
    unfold comment_line. by rewrite !append_assoc.
Qed.

(** A comment block: the text is made of the lines from the opening one to
    the one before the closing one, each without its first two characters
    and stripped, and the file goes on after the closing line. *)
Theorem read_comments_block opener body closer rest :
  strip opener = "/*" -> Forall (fun l => strip l <> "*/") body ->
  strip closer = "*/" ->
  read_comments (body ++ closer :: rest) opener
  = Ok (join (map comment_line (opener :: body)), rest).
Proof.
  intros Ho Hbody Hc. unfold read_comments.
  rewrite read_comments_from_block; try done. by rewrite Ho.
Qed.

Lemma read_comments_block_example :
  read_comments
    ([line " * [name]"; line " *   Press"] ++ line " */"
       :: [line "void kbfun_press(void) {"])
    (line "/*")
  = Ok (join (map comment_line
                (line "/*" :: [line " * [name]"; line " *   Press"])),
        [line "void kbfun_press(void) {"]).
Proof.
  apply read_comments_block.
  - reflexivity.
  - repeat constructor; vm_compute; congruence.
  - reflexivity.
Defined.

Lemma read_comments_from_open f : forall l comments,
  strip l <> "*/" -> Forall (fun l => strip l <> "*/") f ->
  read_comments_from f l comments = Raise StopIteration.
Proof.
  induction f as [|l' f IH]; intros l comments Hl Hf;
    cbn [read_comments_from]; rewrite bool_decide_eq_true_2 by done; [done|].
  apply Forall_cons in Hf as [Hl' Hf]. by apply IH.
Qed.

(** A comment that is not closed before the end of the file *)
Theorem read_comments_open f opener :
  strip opener = "/*" -> Forall (fun l => strip l <> "*/") f ->
  read_comments f opener = Raise StopIteration.
Proof.
  intros Ho Hf. apply read_comments_from_open; [|done]. by rewrite Ho.
Qed.

Lemma read_comments_open_example :
  read_comments [line " * [name]"; line " *   Press"] (line "/*")
  = Raise StopIteration.
Proof.
  apply read_comments_open.
  - reflexivity.
  - repeat constructor; vm_compute; congruence.
Defined.

Lemma scan_files_c files : forall output,
  scan_files files output = scan_files (c_files files) output.
Proof.
  unfold c_files.
  induction files as [|[name f] files IH]; intros output; [done|].
  cbn [scan_files]. case_bool_decide as Hc.
  - rewrite filter_cons_False by (by intros ?). apply IH.
  - rewrite filter_cons_True by done.
    cbn [scan_files]. rewrite bool_decide_eq_false_2 by (by intros ?).
    destruct (scan _ f "" output); [|done]. cbn [mbind result_bind].
    apply IH.
Qed.

(** Only the files whose name ends in [.c] are read. *)
Theorem parse_source_code_c_files files :
  parse_source_code files = parse_source_code (c_files files).
Proof. apply scan_files_c. Qed.

Lemma parse_bound f l c parsed name :
  parse_comments c = Ok parsed ->
  group (search re_kbfun_name l) 1 = Ok name ->
  parse_keyboard_function f l c = Ok (function_comments name parsed).
Proof.
  intros Hc H. unfold parse_keyboard_function. rewrite H.
  cbn [mbind result_bind]. by rewrite Hc.
Qed.

Lemma scan_bound c parsed mid : forall post output fuel,
  parse_comments c = Ok parsed ->
  Forall (fun l => strip l <> "/*") mid ->
  scan (length mid + fuel) (mid ++ post) c output
  = scan fuel post c (foldl (bound parsed) output mid).
Proof.
  induction mid as [|l mid IH]; intros post output fuel Hc Hmid; [done|].
  apply Forall_cons in Hmid as [Hl Hmid].
  cbn [length app foldl Nat.add scan].
  rewrite bool_decide_eq_false_2 by done. unfold bound at 2.
  case_bool_decide as Hm.
  - destruct (kbfun_has_name l Hm) as [name Hname].
    rewrite (parse_bound _ _ _ parsed name Hc Hname), Hname.
    cbn [mbind result_bind]. by apply IH.
  - by apply IH.
Qed.

(** A comment block is bound to every declaration that follows it, up to
    the next comment: after the block, the lines up to the next opening
    line are scanned with the text of the block. *)
Theorem scan_comment_bound opener body closer mid post parsed output fuel :
  strip opener = "/*" -> Forall (fun l => strip l <> "*/") body ->
  strip closer = "*/" ->
  parse_comments (join (map comment_line (opener :: body))) = Ok parsed ->
  Forall (fun l => strip l <> "/*") mid ->
  forall comments,
    scan (S (length mid + fuel)) (opener :: body ++ closer :: mid ++ post)
      comments output
    = scan fuel post (join (map comment_line (opener :: body)))
        (foldl (bound parsed) output mid).
Proof.
  intros Ho Hbody Hc Hparsed Hmid comments. cbn [scan].
  rewrite bool_decide_eq_true_2 by done. unfold read_comments.
  rewrite read_comments_from_block by (done || by rewrite Ho).
  cbn [mbind result_bind]. rewrite append_nil. by apply scan_bound.
Qed.

Lemma scan_comment_bound_example :
  scan (S (length [line "void kbfun_press(void) {"; line "";
                   line "void kbfun_release(void) {"] + 0))
    (line "/*"
       :: [line " * [name]"; line " *   Press"] ++ line " */"
       :: [line "void kbfun_press(void) {"; line "";
           line "void kbfun_release(void) {"] ++ [])
    "" (PyDict ∅)
  = scan 0 []
      (join (map comment_line
               (line "/*" :: [line " * [name]"; line " *   Press"])))
      (foldl (bound (PyDict {[ "name" := PyStr "Press" ]})) (PyDict ∅)
         [line "void kbfun_press(void) {"; line "";
          line "void kbfun_release(void) {"]).
Proof.
  apply (scan_comment_bound (line "/*")
           [line " * [name]"; line " *   Press"] (line " */")
           [line "void kbfun_press(void) {"; line "";
            line "void kbfun_release(void) {"] []
           (PyDict {[ "name" := PyStr "Press" ]}) (PyDict ∅) 0).
  - reflexivity.
  - repeat constructor; vm_compute; congruence.
  - reflexivity.
  - vm_compute. reflexivity.
  - repeat constructor; vm_compute; congruence.
Defined.

End SourcesMore.

(** ** Sections without a line *)

Section CommentsMore.
Import Re SourceCode.

Lemma add_field_returns o f v :
  lists_only o -> exists o', add_field o f (Some v) = Ok o' /\ lists_only o'.
Proof.
  intros Ho. destruct f as [f|]; [|by exists o].
  assert (exists o', add_field o (Some f) (Some v) = Ok o') as [o' H].
  { unfold add_field. cbn [mbind result_bind].
    case_bool_decide as Hf.
    - case_bool_decide; eauto.
    - fold (key_of f).
      assert (f <> "name" /\ f <> "description") as [Hn Hd] by tauto.
      destruct (key_of_other f Hn Hd) as [Hkn Hkd].
      case_bool_decide as Hdom.
      + rewrite lookup_insert_eq. eauto.
      + apply elem_of_dom in Hdom as [x Hx]. rewrite Hx.
        destruct (Ho _ _ Hkn Hkd Hx) as [l ->]. eauto. }
  exists o'. split; [done|]. by eapply add_field_lists.
Qed.

Lemma add_fields_bare lines : forall f v o,
  lists_only o ->
  if bare_section lines (bool_decide (v = None))
  then add_fields (closings lines f v) o = Raise AttributeError
  else exists out, add_fields (closings lines f v) o = Ok out.
Proof.
  induction lines as [|l lines IH]; intros f v o Ho.
  - cbn [bare_section closings add_fields]. destruct v as [v|].
    + rewrite bool_decide_eq_false_2 by done.
      destruct (add_field_returns o f v Ho) as (o' & -> & _).
      cbn [mbind result_bind]. eauto.
    + rewrite bool_decide_eq_true_2 by done. done.
  - cbn [bare_section closings]. case_bool_decide as Hm.
    + cbn [add_fields]. destruct v as [v|].
      * rewrite bool_decide_eq_false_2 by done. cbn [orb].
        destruct (add_field_returns o f v Ho) as (o' & -> & Ho').
        cbn [mbind result_bind].
        apply (IH (Some (drop_chars 1 (drop_last (strip l)))) None o' Ho').
      * rewrite bool_decide_eq_true_2 by done. done.
    + apply (IH f (Some (accumulate v (strip l))) o Ho).
Qed.

(** [parse_comments] raises [AttributeError] when a marker is the first
    line of the text, follows the line of another marker or is the last
    line, and returns a dictionary otherwise. *)
Theorem parse_comments_bare text :
  if bare_section (split_nl text) true
  then parse_comments text = Raise AttributeError
  else exists out, parse_comments text = Ok (PyDict out).
Proof.
  rewrite parse_comments_closings. unfold sections.
  pose proof (add_fields_bare (split_nl text) None None ∅) as H.
  rewrite bool_decide_eq_true_2 in H by done.
  destruct (bare_section (split_nl text) true).
  - rewrite H; [done|]. intros key x _ _. by rewrite lookup_empty.
  - destruct H as [out ->]; [|by exists out].
    intros key x _ _. by rewrite lookup_empty.
Qed.

End CommentsMore.

(** ** The names of the functions *)

Section Names.
Import Re SourceCode.

Local Arguments Ascii.eqb : simpl never.

(** What a match consists of *)
Lemma star_inv cl k r s : forall b cur,
  star cl k b cur s = Some r ->
  exists h s' b',
    s = h +:+ s' /\ all_in cl h = true /\ k b' (pushs cur h) s' = Some r.
Proof.
  induction s as [|c s IH]; intros b cur H.
  - exists "", "", b. by rewrite pushs_empty.
  - cbn [star] in H. destruct (in_class cl c) eqn:Hc.
    + destruct (star cl k false (push cur c) s) as [r'|] eqn:Hs.
      * injection H as ->.
        destruct (IH _ _ Hs) as (h & s' & b' & -> & Hh & Hk).
        exists (String c h), s', b'. rewrite pushs_push in Hk.
        cbn [all_in]. by rewrite Hc, Hh.
      * exists "", (String c s), b. by rewrite pushs_empty.
    + exists "", (String c s), b. by rewrite pushs_empty.
Qed.

Lemma match_plus_inv cl p b cur caps s r :
  match_here (Plus cl :: p) b cur caps s = Some r ->
  exists h s' b',
    s = h +:+ s' /\ h <> "" /\ all_in cl h = true
    /\ match_here p b' (pushs cur h) caps s' = Some r.
Proof.
  cbn [match_here]. destruct s as [|c s]; [done|].
  destruct (in_class cl c) eqn:Hc; [|done]. intros H.
  apply star_inv in H as (h & s' & b' & -> & Hh & Hk).
  rewrite pushs_push in Hk.
  exists (String c h), s', b'. cbn [all_in]. by rewrite Hc, Hh.
Qed.

Lemma match_lit_inv t : forall p b cur caps s r,
  match_here (lit t ++ p)%list b cur caps s = Some r ->
  exists s' b', s = t +:+ s'
    /\ match_here p b' (pushs cur t) caps s' = Some r.
Proof.
  induction t as [|a t IH]; intros p b cur caps s r H.
  - exists s, b. by rewrite pushs_empty.
  - cbn [lit app match_here] in H. destruct s as [|c s]; [done|].
    destruct (in_class (Chr a) c) eqn:Hc; [|done].
    cbn [in_class] in Hc. apply Ascii.eqb_eq in Hc as <-.
    apply IH in H as (s' & b' & -> & H). rewrite pushs_push in H.
    by exists s', b'.
Qed.

(** A pattern that closes no group leaves the groups as they are. *)
Lemma match_here_caps p : forall b cur caps s r,
  groups p = O -> match_here p b cur caps s = Some r -> r = caps.
Proof.
  induction p as [|i p IH]; intros b cur caps s r Hg H.
  - by injection H.
  - destruct i; cbn [groups] in Hg; cbn [match_here] in H; try done.
    + destruct s as [|c s]; [done|]. destruct (in_class cl c); [|done].
      by eapply IH.
    + apply star_inv in H as (h & s' & b' & _ & _ & H). by eapply IH.
    + destruct s as [|c s]; [done|]. destruct (in_class cl c); [|done].
      apply star_inv in H as (h & s' & b' & _ & _ & H). by eapply IH.
    + destruct b; [|done]. by eapply IH.
    + destruct (_ || _); [|done]. by eapply IH.
    + by eapply IH.
Qed.

Lemma search_from_inv p s : forall b r,
  search_from p b s = Some r ->
  exists b' s', match_here p b' None [] s' = Some r.
Proof.
  induction s as [|c s IH]; intros b r H; cbn [search_from] in H.
  - destruct (match_here p b None [] "") eqn:Hm; [|done].
    injection H as ->. eauto.
  - destruct (match_here p b None [] (String c s)) eqn:Hm.
    + injection H as ->. eauto.
    + by eapply IH.
Qed.

(** A pattern matches where the pattern without its groups does. *)
Lemma match_here_groups p : forall b cur caps cur' caps' s,
  is_Some (match_here p b cur caps s) ->
  is_Some (match_here (erase p) b cur' caps' s).
Proof.
  induction p as [|i p IH]; intros b cur caps cur' caps' s; [done|].
  destruct i; cbn [erase match_here].
  - destruct s as [|c s]; [done|]. destruct (in_class cl c); [|done].
    apply IH.
  - apply star_is_Some. intros. by eapply IH.
  - destruct s as [|c s]; [done|]. destruct (in_class cl c); [|done].
    apply star_is_Some. intros. by eapply IH.
  - destruct b; [apply IH|done].
  - destruct (_ || _); [apply IH|done].
  - apply IH.
  - apply IH.
Qed.

Lemma search_from_groups p s : forall b,
  is_Some (search_from p b s) -> is_Some (search_from (erase p) b s).
Proof.
  induction s as [|c s IH]; intros b; cbn [search_from].
  - destruct (match_here p b None [] "") eqn:E; [|by intros [? [=]]].
    intros _.
    destruct (match_here_groups p b None [] None [] "") as [r ->];
      [by rewrite E|]. done.
  - destruct (match_here p b None [] (String c s)) eqn:E.
    + intros _.
      destruct (match_here_groups p b None [] None [] (String c s))
        as [r ->]; [by rewrite E|]. done.
    + intros H. destruct (match_here (erase p) b None [] (String c s));
        [done|]. by apply IH.
Qed.

Lemma kbfun_name_prefix l name :
  group (search re_kbfun_name l) 1 = Ok name -> kbfun_name name.
Proof.
  unfold group.
  destruct (search re_kbfun_name l) as [caps|] eqn:Hs; [|done].
  apply search_from_inv in Hs as (b & s & H). unfold re_kbfun_name in H.
  apply match_lit_inv in H as (s1 & b1 & -> & H).
  change ([Plus Space; Open] ++ ?p)%list
    with (Plus Space :: Open :: p) in H.
  apply match_plus_inv in H as (h1 & s2 & b2 & -> & _ & _ & H).
  cbn [match_here] in H.
  apply match_lit_inv in H as (s3 & b3 & -> & H).
  change ([Plus NonSpace; Close; Star Space] ++ ?p)%list
    with (Plus NonSpace :: Close :: ([Star Space] ++ p)%list) in H.
  apply match_plus_inv in H as (h & s4 & b4 & -> & Hne & Hh & H).
  cbn [match_here pushs default] in H.
  apply match_here_caps in H; [|reflexivity]. subst caps.
  intros [= <-]. by exists h.
Qed.

(** The guard of the scan and the pattern of the name match the same
    lines, and the name they give is [kbfun_] followed by characters, at
    least one, none of which is white space. *)
Theorem kbfun_guard_name l :
  is_Some (search re_kbfun l)
  <-> exists name, group (search re_kbfun_name l) 1 = Ok name
                   /\ kbfun_name name.
Proof.
  split.
  - intros Hm. destruct (kbfun_has_name l Hm) as [name Hname].
    exists name. split; [done|]. by eapply kbfun_name_prefix.
  - intros (h & H & _). unfold group in H.
    destruct (search re_kbfun_name l) as [caps|] eqn:Hs; [|done].
    unfold search in *. change re_kbfun with (erase re_kbfun_name).
    apply search_from_groups. by rewrite Hs.
Qed.

End Names.

(** ** The output of the scan of the source code *)

Section SourceOutput.
Import Re SourceCode.

Lemma parse_comments_shape text c :
  parse_comments text = Ok c -> comments_shape c.
Proof.
  rewrite parse_comments_closings.
  destruct (add_fields (sections text) ∅) as [out|e] eqn:H; [|done].
  cbn [mbind result_bind]. intros [= <-].
  destruct (add_fields_spec (sections text) ∅ out) as [Hn Hk]; [|done|].
  { intros key x _ _. by rewrite lookup_empty. }
  exists out. split; [done|]. intros key v Hv. case_bool_decide as Hkey.
  - rewrite (Hn key Hkey), lookup_empty in Hv.
    destruct (first_value key _) as [s|]; [|done].
    injection Hv as <-. eauto.
  - rewrite Hk, lookup_empty in Hv by tauto.
    destruct (all_values key _) as [|s vs]; [done|].
    injection Hv as <-. by exists (s :: vs).
Qed.

Lemma comments_merge c1 c2 :
  comments_shape c1 -> comments_shape c2 ->
  comments_shape (dict_merge c1 c2).
Proof.
  intros (d1 & -> & H1) (d2 & -> & H2).
  destruct (dict_merge_dict d1 d2) as (m & -> & Hm).
  exists m. split; [done|]. intros key v. rewrite Hm. unfold merged.
  destruct (d2 !! key) as [y|] eqn:Hy; [|apply H1].
  destruct (d1 !! key) as [x|]; [|intros [= <-]; by apply H2].
  intros [= <-]. specialize (H2 _ _ Hy).
  rewrite dict_merge_leaf_r; [done|].
  intros d ->. case_bool_decide; [by destruct H2|by destruct H2 as (? & _ & ?)].
Qed.

Lemma comments_record_merge c1 c2 :
  dict_merge (PyDict {[ "comments" := c1 ]}) (PyDict {[ "comments" := c2 ]})
  = PyDict {[ "comments" := dict_merge c1 c2 ]}.
Proof.
  destruct (dict_merge_dict {[ "comments" := c1 ]} {[ "comments" := c2 ]})
    as (m & -> & Hm).
  f_equal. apply map_eq. intros key. rewrite Hm. unfold merged.
  destruct (decide (key = "comments")) as [->|].
  - by rewrite !lookup_singleton_eq.
  - by rewrite !lookup_singleton_ne.
Qed.

Lemma source_functions_merge x name c :
  source_functions x -> kbfun_name name -> comments_shape c ->
  source_functions
    (dict_merge x (PyDict {[ name := PyDict {[ "comments" := c ]} ]})).
Proof.
  intros (fs & -> & Hfs) Hname Hc.
  destruct (dict_merge_dict fs {[ name := PyDict {[ "comments" := c ]} ]})
    as (m & -> & Hm).
  exists m. split; [done|]. intros n y. rewrite Hm. unfold merged.
  destruct (decide (n = name)) as [->|].
  - rewrite lookup_singleton_eq. intros H. split; [done|].
    destruct (fs !! name) as [z|] eqn:Hz.
    + destruct (Hfs _ _ Hz) as (_ & c0 & -> & Hc0).
      rewrite comments_record_merge in H. injection H as <-.
      eexists. split; [done|]. by apply comments_merge.
    + injection H as <-. eauto.
  - rewrite lookup_singleton_ne by done. apply Hfs.
Qed.

Lemma source_output_merge output name c :
  source_output output -> kbfun_name name -> comments_shape c ->
  source_output (dict_merge output (function_comments name c)).
Proof.
  intros (d & -> & Hd) Hname Hc. unfold function_comments.
  match goal with
  | |- source_output (dict_merge (PyDict ?da) (PyDict ?db)) =>
      destruct (dict_merge_dict da db) as (m & -> & Hm)
  end.
  exists m. split; [done|]. intros key x. rewrite Hm. unfold merged.
  destruct (decide (key = "keyboard-functions")) as [->|].
  - rewrite lookup_singleton_eq. intros [= <-]. split; [done|].
    destruct (d !! "keyboard-functions") as [z|] eqn:Hz.
    + destruct (Hd _ _ Hz) as [_ Hf]. by apply source_functions_merge.
    + exists {[ name := PyDict {[ "comments" := c ]} ]}. split; [done|].
      intros n y. rewrite lookup_singleton. case_decide; [|done].
      intros [= <-]. subst n. eauto.
  - rewrite lookup_singleton_ne by done. apply Hd.
Qed.

Lemma source_function_shape f l c found :
  parse_keyboard_function f l c = Ok found ->
  exists name parsed,
    found = function_comments name parsed
    /\ kbfun_name name /\ comments_shape parsed.
Proof.
  unfold parse_keyboard_function.
  destruct (group (search re_kbfun_name l) 1) as [name|] eqn:Hname; [|done].
  cbn [mbind result_bind].
  destruct (parse_comments c) as [parsed|] eqn:Hc; [|done].
  cbn [mbind result_bind]. intros [= <-]. exists name, parsed.
  split; [done|]. split; [by eapply kbfun_name_prefix|].
  by eapply parse_comments_shape.
Qed.

Lemma source_scan_output fuel : forall f c output out,
  source_output output -> scan fuel f c output = Ok out -> source_output out.
Proof.
  induction fuel as [|fuel IH]; intros [|l f] c output out Hout;
    cbn [scan]; try (by intros [= <-]); try done.
  case_bool_decide.
  - destruct (read_comments f l) as [[c' f']|]; [|done].
    cbn [mbind result_bind]. by apply IH.
  - case_bool_decide; [|by apply IH].
    destruct (parse_keyboard_function f l c) as [found|] eqn:E; [|done].
    cbn [mbind result_bind].
    destruct (source_function_shape _ _ _ _ E) as (name & parsed & -> & ? & ?).
    apply IH. by apply source_output_merge.
Qed.

Lemma scan_files_output files : forall output out,
  source_output output -> scan_files files output = Ok out ->
  source_output out.
Proof.
  induction files as [|[name f] files IH]; intros output out Hout;
    cbn [scan_files]; [by intros [= <-]|].
  case_bool_decide; [by apply IH|].
  destruct (scan (length f) f "" output) as [output'|] eqn:E; [|done].
  cbn [mbind result_bind]. apply IH. by eapply source_scan_output.
Qed.

Lemma source_output_empty : source_output (PyDict ∅).
Proof. exists ∅. split; [done|]. intros key x. by rewrite lookup_empty. Qed.

(** The shape of what [parse_source_code] returns *)
Theorem parse_source_code_output files out :
  parse_source_code files = Ok out -> source_output out.
Proof. apply scan_files_output, source_output_empty. Qed.

Lemma parse_source_code_output_example :
  source_output
    (PyDict {[ "keyboard-functions" :=
       PyDict {[ "kbfun_press" :=
         PyDict {[ "comments" :=
           PyDict {[ "name" := PyStr "Press";
                     "notes" := PyList [PyStr "One"] ]} ]} ]} ]}).
Proof.
  apply (parse_source_code_output
           [("src/main.c",
             map line ["/*"; " * [name]"; " *   Press"; " * [note]";
                       " *   One"; " */"; "void kbfun_press(void) {"; "}"])]).
  vm_compute. reflexivity.
Defined.

End SourceOutput.

(** ** [main] *)

Section Main.
Import Re.

Implicit Types (date : option string) (gcd gci : string).

(** The output before [gen_derived] is called *)
Lemma main_merged date gcd gci dm ds :
  map_output (PyDict dm) -> source_output (PyDict ds) ->
  exists m,
    dict_merge
      (dict_merge (dict_merge (PyDict ∅) (gen_static date (Some gcd) (Some gci)))
         (PyDict dm)) (PyDict ds) = PyDict m
    /\ m !! ".meta-data"
       = Some (PyDict {[ "version" := PyInt 0;
                         "date-generated" := py_str date ]})
    /\ m !! "miscellaneous"
       = Some (PyDict {[ "git-commit-date" := PyStr gcd;
                         "git-commit-id" := PyStr gci ]})
    /\ m !! "layout-matrices" = dm !! "layout-matrices"
    /\ m !! "keyboard-functions" = merged dm ds "keyboard-functions"
    /\ forall key, key <> ".meta-data" -> key <> "miscellaneous" ->
         key <> "layout-matrices" -> key <> "keyboard-functions" ->
         m !! key = None.
Proof.
  intros (dm' & [= <-] & Hdm) (ds' & [= <-] & Hds).
  unfold gen_static. rewrite dict_merge_empty_l.
  match goal with
  | |- context [dict_merge (PyDict ?da) (PyDict dm)] =>
      destruct (dict_merge_dict da dm) as (m2 & -> & H2)
  end.
  destruct (dict_merge_dict m2 ds) as (m3 & -> & H3).
  exists m3. split; [done|].
  assert (forall key, key <> "keyboard-functions" -> ds !! key = None)
    as Hs.
  { intros key Hk. destruct (ds !! key) as [x|] eqn:Hx; [|done].
    by destruct (Hds _ _ Hx). }
  assert (forall key, key <> "keyboard-functions" ->
            key <> "layout-matrices" -> dm !! key = None) as Hm.
  { intros key Hk Hl. destruct (dm !! key) as [x|] eqn:Hx; [|done].
    by destruct (Hdm _ _ Hx) as [[? _]|[? _]]. }
  repeat split.
  - rewrite H3. unfold merged. rewrite Hs by done.
    rewrite H2. unfold merged. rewrite Hm by done.
    by rewrite lookup_insert_eq.
  - rewrite H3. unfold merged. rewrite Hs by done.
    rewrite H2. unfold merged. rewrite Hm by done.
    rewrite lookup_insert_ne by done. by rewrite lookup_singleton_eq.
  - rewrite H3. unfold merged. rewrite Hs by done.
    rewrite H2. unfold merged. destruct (dm !! "layout-matrices"); [|done].
    rewrite lookup_insert_ne by done. by rewrite lookup_singleton_ne.
  - rewrite H3. unfold merged.
    assert (m2 !! "keyboard-functions" = dm !! "keyboard-functions") as ->.
    { rewrite H2. unfold merged.
      destruct (dm !! "keyboard-functions"); [|done].
      rewrite lookup_insert_ne by done. by rewrite lookup_singleton_ne. }
    done.
  - intros key H1 H4 H5 H6.
    rewrite H3. unfold merged. rewrite Hs by done.
    rewrite H2. unfold merged. rewrite Hm by done.
    rewrite lookup_insert_ne by done. by rewrite lookup_singleton_ne.
Qed.

Ltac lookups :=
  repeat first
    [ rewrite lookup_insert_eq | rewrite lookup_singleton_eq
    | rewrite lookup_insert_ne by done
    | rewrite lookup_singleton_ne by done ].

Lemma miscellaneous_merge (a b : pyobj) n :
  dict_merge (PyDict {[ "git-commit-date" := a; "git-commit-id" := b ]})
    (PyDict {[ "number-of-layers" := PyInt n ]})
  = PyDict {[ "git-commit-date" := a; "git-commit-id" := b;
              "number-of-layers" := PyInt n ]}.
Proof.
  match goal with
  | |- dict_merge (PyDict ?da) (PyDict ?db) = _ =>
      destruct (dict_merge_dict da db) as (m & -> & Hm)
  end.
  f_equal. apply map_eq. intros key. rewrite Hm. unfold merged.
  destruct (decide (key = "number-of-layers")) as [->|]; [by lookups|].
  destruct (decide (key = "git-commit-date")) as [->|]; [by lookups|].
  destruct (decide (key = "git-commit-id")) as [->|]; by lookups.
Qed.

Lemma record_comments_merge p l c :
  dict_merge (MapFile.record p l) (PyDict {[ "comments" := c ]})
  = PyDict {[ "position" := PyInt p; "length" := PyInt l;
              "comments" := c ]}.
Proof.
  unfold MapFile.record.
  match goal with
  | |- dict_merge (PyDict ?da) (PyDict ?db) = _ =>
      destruct (dict_merge_dict da db) as (m & -> & Hm)
  end.
  f_equal. apply map_eq. intros key. rewrite Hm. unfold merged.
  destruct (decide (key = "comments")) as [->|]; [by lookups|].
  destruct (decide (key = "position")) as [->|]; [by lookups|].
  destruct (decide (key = "length")) as [->|]; by lookups.
Qed.

(** [main] after the two parsers have returned *)
Lemma main_parsed date gcd gci map_file source_code dm ds :
  MapFile.parse_mapfile map_file = Ok (PyDict dm) ->
  SourceCode.parse_source_code source_code = Ok (PyDict ds) ->
  exists m,
    (forall key, key <> ".meta-data" -> key <> "miscellaneous" ->
       key <> "layout-matrices" -> key <> "keyboard-functions" ->
       m !! key = None)
    /\ m !! ".meta-data"
       = Some (PyDict {[ "version" := PyInt 0;
                         "date-generated" := py_str date ]})
    /\ m !! "miscellaneous"
       = Some (PyDict {[ "git-commit-date" := PyStr gcd;
                         "git-commit-id" := PyStr gci ]})
    /\ m !! "layout-matrices" = dm !! "layout-matrices"
    /\ m !! "keyboard-functions" = merged dm ds "keyboard-functions"
    /\ main date gcd gci map_file source_code
       = (derived ← gen_derived (PyDict m);
          Ok (dict_merge (PyDict m) derived)).
Proof.
  intros Hm Hs. unfold main. rewrite Hm, Hs. cbn [mbind result_bind].
  destruct (main_merged date gcd gci dm ds) as (m & -> & H1 & H2 & H3 & H4 & H5).
  { eapply map_scan_output; [apply map_output_empty|exact Hm]. }
  { eapply scan_files_output; [apply source_output_empty|exact Hs]. }
  exists m. done.
Qed.

(** What [main] prints has the four entries of the format and no other:
    the static entries are as [gen_static] made them, the layout matrices
    are those of the map file, and the number of layers is added to the
    entry [miscellaneous] beside the two fields of the commit. *)
Theorem main_output date gcd gci map_file source_code out :
  main date gcd gci map_file source_code = Ok out ->
  main_shape date gcd gci out.
Proof.
  intros H.
  destruct (MapFile.parse_mapfile map_file) as [m|e] eqn:Hm.
  2: { unfold main in H. by rewrite Hm in H. }
  destruct (SourceCode.parse_source_code source_code) as [s|e] eqn:Hs.
  2: { unfold main in H. by rewrite Hm, Hs in H. }
  pose proof (map_scan_output _ _ _ _ map_output_empty Hm)
    as (dm & -> & Hdm).
  pose proof (scan_files_output _ _ _ source_output_empty Hs)
    as (ds & -> & Hds).
  destruct (main_parsed date gcd gci _ _ _ _ Hm Hs)
    as (m & Hother & Hmeta & Hmisc & Hlayout & _ & Hmain).
  rewrite Hmain in H. clear Hmain. unfold gen_derived in H.
  cbn [subscript] in H. rewrite Hlayout in H.
  destruct (dm !! "layout-matrices") as [x|] eqn:Hx; [|done].
  destruct (Hdm _ _ Hx) as [[[=] _]|[_ Hmat]].
  destruct Hmat as (p1 & p2 & p3 & bl & Hp1 & Hp2 & Hp3 & ->).
  cbn [mbind result_bind subscript] in H.
  rewrite lookup_insert_eq in H. unfold MapFile.record in H at 1.
  cbn [mbind result_bind subscript] in H.
  rewrite lookup_insert_ne, lookup_singleton_eq in H by done.
  cbn [mbind result_bind] in H.
  destruct (int_truediv bl (6 * 14)) as [n|] eqn:Hn; [|done].
  cbn [mbind result_bind] in H.
  match type of H with
  | context [dict_merge (PyDict m) (PyDict ?db)] =>
      destruct (dict_merge_dict m db) as (m4 & Hm4 & H4); rewrite Hm4 in H
  end.
  injection H as <-.
  exists p1, p2, p3, bl, n. cbn [entry].
  split; [exact Hn|]. do 3 (split; [assumption|]). split_and!.
  - rewrite H4. unfold merged. by rewrite lookup_singleton_ne.
  - rewrite H4. unfold merged. rewrite lookup_singleton_eq, Hmisc.
    by rewrite miscellaneous_merge.
  - rewrite H4. unfold merged. by rewrite lookup_singleton_ne.
  - intros key [y Hy].
    destruct (decide (key = ".meta-data")); [tauto|].
    destruct (decide (key = "miscellaneous")); [tauto|].
    destruct (decide (key = "layout-matrices")); [tauto|].
    destruct (decide (key = "keyboard-functions")); [tauto|].
    rewrite H4 in Hy. unfold merged in Hy.
    rewrite lookup_singleton_ne in Hy by done.
    by rewrite Hother in Hy.
Qed.

Lemma main_output_example :
  main_shape (Some "2012-10-01 12:00:00-07:00")
    "2012-09-30 10:00:00-07:00" "0123abc"
    (printed_example (Some "2012-10-01 12:00:00-07:00")).
Proof.
  apply (main_output (Some "2012-10-01 12:00:00-07:00")
           "2012-09-30 10:00:00-07:00" "0123abc"
           map_file_example source_code_example).
  vm_compute. reflexivity.
Defined.

(** The lines that a keyboard function of the map file takes *)
Lemma map_function_lines f l found f' :
  MapFile.parse_keyboard_function f l = Ok (found, f') ->
  exists l1 l2, f = l1 :: l2 :: f'.
Proof.
  unfold MapFile.parse_keyboard_function.
  destruct f as [|l1 [|l2 f]]; cbn [next mbind result_bind]; [done| |];
    repeat match goal with
    | |- mbind _ ?m = Ok _ -> _ =>
        let E := fresh "E" in
        destruct m eqn:E; cbn [next mbind result_bind]; [|discriminate]
    end; [done|].
  intros H. inversion H; subst. eauto.
Qed.

Lemma map_scan_no_layout fuel : forall f output out,
  Forall (fun l => search MapFile.re_layout_trigger l = None) f ->
  map_output output -> entry output "layout-matrices" = None ->
  MapFile.scan fuel f output = Ok out ->
  entry out "layout-matrices" = None.
Proof.
  induction fuel as [|fuel IH]; intros [|l f] output out Hf Hout Hnone;
    cbn [MapFile.scan]; try (by intros [= <-]); try done.
  apply Forall_cons in Hf as [Hl Hf].
  case_bool_decide.
  - destruct (MapFile.parse_keyboard_function f l) as [[found f']|] eqn:E;
      [|done].
    cbn [mbind result_bind].
    destruct (map_function_lines _ _ _ _ E) as (l1 & l2 & ->).
    destruct (parse_keyboard_function_shape _ _ _ _ E)
      as (name & p & len & ->).
    apply Forall_cons in Hf as [_ Hf]. apply Forall_cons in Hf as [_ Hf].
    apply IH; [done|by apply map_output_functions|].
    destruct Hout as (d & -> & _).
    match goal with
    | |- context [dict_merge (PyDict d) (PyDict ?db)] =>
        destruct (dict_merge_dict d db) as (m & -> & Hm)
    end.
    cbn [entry] in *. rewrite Hm. unfold merged.
    by rewrite lookup_singleton_ne.
  - rewrite Hl. rewrite bool_decide_eq_false_2 by (by intros [? [=]]).
    by apply IH.
Qed.

(** A map file in which no line starts the layout matrices: [main] ends
    with [KeyError] for the key [layout-matrices], raised by
    [gen_derived], whatever the two parsers have found. *)
Theorem main_without_layout date gcd gci map_file source_code m s :
  Forall (fun l => search MapFile.re_layout_trigger l = None) map_file ->
  MapFile.parse_mapfile map_file = Ok m ->
  SourceCode.parse_source_code source_code = Ok s ->
  main date gcd gci map_file source_code
  = Raise (KeyError "layout-matrices").
Proof.
  intros Hf Hm Hs.
  assert (entry m "layout-matrices" = None) as Hnone.
  { eapply map_scan_no_layout; [exact Hf|apply map_output_empty| |exact Hm].
    done. }
  pose proof (map_scan_output _ _ _ _ map_output_empty Hm)
    as (dm & -> & Hdm).
  pose proof (scan_files_output _ _ _ source_output_empty Hs)
    as (ds & -> & Hds).
  destruct (main_parsed date gcd gci _ _ _ _ Hm Hs)
    as (m & _ & _ & _ & Hlayout & _ & ->).
  unfold gen_derived. cbn [subscript entry] in *.
  by rewrite Hlayout, Hnone.
Qed.

Lemma main_without_layout_example :
  main None "2012-09-30 10:00:00-07:00" "0123abc"
    (map line
       [" .text.kbfun_press";
        "                0x0000241e       0x1c build/main.o";
        "                0x0000241e                kbfun_press"])
    source_code_example
  = Raise (KeyError "layout-matrices").
Proof.
  apply (main_without_layout None "2012-09-30 10:00:00-07:00" "0123abc"
           (map line
              [" .text.kbfun_press";
               "                0x0000241e       0x1c build/main.o";
               "                0x0000241e                kbfun_press"])
           source_code_example
           (PyDict {[ "keyboard-functions" :=
                        PyDict {[ "kbfun_press" :=
                                    MapFile.record 9246 28 ]} ]})
           parsed_source_example).
  - repeat constructor.
  - vm_compute. reflexivity.
  - vm_compute. reflexivity.
Defined.

Lemma gen_derived_shape data derived :
  gen_derived data = Ok derived -> exists n, derived = number_of_layers n.
Proof.
  unfold gen_derived.
  repeat match goal with
  | |- mbind _ ?m = Ok _ -> _ =>
      let E := fresh "E" in
      destruct m eqn:E; cbn [mbind result_bind]; [|discriminate]
  end.
  intros [= <-]. eauto.
Qed.

(** The record of a function that [main] prints: a function of the map
    file that the source code declares has its position, its length and its
    comments in one record; a function that only one of the two parsers
    has found keeps the record of that parser. *)
Theorem main_functions date gcd gci map_file source_code m s out name :
  MapFile.parse_mapfile map_file = Ok m ->
  SourceCode.parse_source_code source_code = Ok s ->
  main date gcd gci map_file source_code = Ok out ->
  match function_of m name, function_of s name with
  | Some x, Some y =>
      exists p l c,
        x = MapFile.record p l /\ y = PyDict {[ "comments" := c ]}
        /\ function_of out name
           = Some (PyDict {[ "position" := PyInt p; "length" := PyInt l;
                             "comments" := c ]})
  | Some x, None => function_of out name = Some x
  | None, oy => function_of out name = oy
  end.
Proof.
  intros Hm Hs H.
  pose proof (map_scan_output _ _ _ _ map_output_empty Hm)
    as (dm & -> & Hdm).
  pose proof (scan_files_output _ _ _ source_output_empty Hs)
    as (ds & -> & Hds).
  destruct (main_parsed date gcd gci _ _ _ _ Hm Hs)
    as (m & _ & _ & _ & _ & Hfun & Hmain).
  rewrite Hmain in H. clear Hmain.
  destruct (gen_derived (PyDict m)) as [derived|] eqn:Hd; [|done].
  apply gen_derived_shape in Hd as [n ->]. unfold number_of_layers in H.
  cbn [mbind result_bind] in H.
  match type of H with
  | context [dict_merge (PyDict m) (PyDict ?db)] =>
      destruct (dict_merge_dict m db) as (m4 & Hm4 & H4); rewrite Hm4 in H
  end.
  injection H as <-. cbn [function_of].
  assert (m4 !! "keyboard-functions" = merged dm ds "keyboard-functions")
    as ->.
  { rewrite H4. unfold merged at 1. by rewrite lookup_singleton_ne. }
  unfold merged.
  destruct (ds !! "keyboard-functions") as [y|] eqn:Hy.
  - destruct (Hds _ _ Hy) as (_ & fss & -> & Hfss).
    destruct (dm !! "keyboard-functions") as [x|] eqn:Hx.
    + destruct (Hdm _ _ Hx) as [[_ (fsm & -> & Hfsm)]|[[=] _]].
      destruct (dict_merge_dict fsm fss) as (mm & -> & Hmm).
      rewrite Hmm. unfold merged.
      destruct (fsm !! name) as [a|] eqn:Ha;
        destruct (fss !! name) as [b|] eqn:Hb; try reflexivity.
      destruct (Hfsm _ _ Ha) as (p & l & ->).
      destruct (Hfss _ _ Hb) as (_ & c & -> & _).
      exists p, l, c. rewrite record_comments_merge.
      split; [reflexivity|]. split; reflexivity.
    + reflexivity.
  - destruct (dm !! "keyboard-functions") as [x|] eqn:Hx; [|reflexivity].
    destruct (Hdm _ _ Hx) as [[_ (fsm & -> & Hfsm)]|[[=] _]].
    destruct (fsm !! name); reflexivity.
Qed.

Lemma main_functions_example :
  exists p l c,
    MapFile.record 9246 28 = MapFile.record p l
    /\ PyDict {[ "comments" := comments_example ]}
       = PyDict {[ "comments" := c ]}
    /\ function_of (printed_example None) "kbfun_press"
       = Some (PyDict {[ "position" := PyInt p; "length" := PyInt l;
                         "comments" := c ]}).
Proof.
  apply (main_functions None "2012-09-30 10:00:00-07:00" "0123abc"
           map_file_example source_code_example
           parsed_map_example parsed_source_example (printed_example None)
           "kbfun_press"); vm_compute; reflexivity.
Defined.

End Main.

(** ** The fields of a comment block *)

Section Blocks.
Import Re SourceCode.








End Blocks.

(** ** The comment block of a declaration *)

Section Binding.
Import Re SourceCode.

Lemma before_from_comment lines :
  lines = (before_comment lines ++ from_comment lines)%list
  /\ Forall (fun l => strip l <> "/*") (before_comment lines).
Proof.
  induction lines as [|l lines [IH1 IH2]]; [done|].
  cbn [before_comment from_comment]. case_bool_decide; [done|].
  split; [cbn [app]; by f_equal|by constructor].
Qed.

Lemma declares_matches name l : declares name l -> is_Some (search re_kbfun l).
Proof.
  unfold declares, group. intros H.
  destruct (search re_kbfun_name l) as [caps|] eqn:Hs; [|done].
  unfold search in *. change re_kbfun with (erase re_kbfun_name).
  apply search_from_groups. by rewrite Hs.
Qed.

Lemma scan_files_app before : forall files output,
  scan_files (before ++ files) output
  = (output ← scan_files before output; scan_files files output).
Proof.
  induction before as [|[path f] before IH]; intros files output; [done|].
  cbn [app scan_files]. case_bool_decide; [apply IH|].
  destruct (scan (length f) f "" output); [|done].
  cbn [mbind result_bind]. apply IH.
Qed.

(** The record of [name] after the record of another function, or the
    record of [name] without comments, has been merged *)
Lemma function_of_merge_other output n c name :
  source_output output -> n <> name ->
  function_of (dict_merge output (function_comments n c)) name
  = function_of output name.
Proof.
  intros (d & -> & Hd) Hn. unfold function_comments.
  match goal with
  | |- context [dict_merge (PyDict d) (PyDict ?db)] =>
      destruct (dict_merge_dict d db) as (m & -> & Hm)
  end.
  cbn [function_of]. rewrite Hm. unfold merged.
  rewrite lookup_singleton_eq.
  destruct (d !! "keyboard-functions") as [x|] eqn:Hx.
  - destruct (Hd _ _ Hx) as (_ & fs & -> & _).
    destruct (dict_merge_dict fs {[ n := PyDict {[ "comments" := c ]} ]})
      as (m2 & -> & Hm2).
    rewrite Hm2. unfold merged. by rewrite lookup_singleton_ne.
  - by rewrite lookup_singleton_ne.
Qed.

Lemma function_of_merge_empty output name :
  source_output output ->
  function_of output name = None \/ function_of output name = Some no_comments ->
  function_of (dict_merge output (function_comments name (PyDict ∅))) name
  = Some no_comments.
Proof.
  intros (d & -> & Hd) H. unfold function_comments.
  match goal with
  | |- context [dict_merge (PyDict d) (PyDict ?db)] =>
      destruct (dict_merge_dict d db) as (m & -> & Hm)
  end.
  cbn [function_of] in *. rewrite Hm. unfold merged.
  rewrite lookup_singleton_eq.
  destruct (d !! "keyboard-functions") as [x|] eqn:Hx.
  - destruct (Hd _ _ Hx) as (_ & fs & -> & _).
    destruct (dict_merge_dict fs {[ name := PyDict {[ "comments" := PyDict ∅ ]} ]})
      as (m2 & -> & Hm2).
    rewrite Hm2. unfold merged. rewrite lookup_singleton_eq.
    destruct H as [->| ->]; [done|].
    unfold no_comments. by rewrite comments_record_merge, dict_merge_self.
  - by rewrite lookup_singleton_eq.
Qed.

Lemma comments_shape_empty : comments_shape (PyDict ∅).
Proof. exists ∅. split; [done|]. intros key v. by rewrite lookup_empty. Qed.

Lemma read_comments_from_rest (P : string -> Prop) f : forall l c c' f',
  Forall P f -> read_comments_from f l c = Ok (c', f') -> Forall P f'.
Proof.
  induction f as [|l' f IH]; intros l c c' f' Hf; cbn [read_comments_from];
    case_bool_decide; try done; try (by intros [= _ <-]).
  apply Forall_cons in Hf as [_ Hf]. by apply IH.
Qed.

(** The scan of lines none of which declares [name] leaves the record of
    [name] as it is. *)
Lemma scan_other name fuel : forall f c output out,
  Forall (fun l => ~ declares name l) f -> source_output output ->
  scan fuel f c output = Ok out ->
  source_output out /\ function_of out name = function_of output name.
Proof.
  induction fuel as [|fuel IH]; intros [|l f] c output out Hf Hout;
    cbn [scan]; try (by intros [= <-]); try done.
  apply Forall_cons in Hf as [Hl Hf]. case_bool_decide.
  - destruct (read_comments f l) as [[c' f']|] eqn:E; [|done].
    cbn [mbind result_bind]. apply IH; [|done].
    by eapply read_comments_from_rest.
  - case_bool_decide; [|by apply IH].
    unfold parse_keyboard_function.
    destruct (group (search re_kbfun_name l) 1) as [n|] eqn:Hn; [|done].
    cbn [mbind result_bind].
    destruct (parse_comments c) as [parsed|] eqn:Hc; [|done].
    cbn [mbind result_bind]. fold (function_comments n parsed).
    intros Hscan. apply IH in Hscan as [H1 H2]; [|done|].
    + split; [done|]. rewrite H2. apply function_of_merge_other; [done|].
      by intros ->.
    + apply source_output_merge; [done|by eapply kbfun_name_prefix|].
      by eapply parse_comments_shape.
Qed.

(** The lines before the first comment of a file *)
Lemma foldl_unbound_function name pre : forall output,
  source_output output ->
  function_of output name = None \/ function_of output name = Some no_comments ->
  source_output (foldl unbound output pre)
  /\ (function_of (foldl unbound output pre) name = None
      \/ function_of (foldl unbound output pre) name = Some no_comments)
  /\ (function_of output name = Some no_comments
      \/ Exists (declares name) pre ->
      function_of (foldl unbound output pre) name = Some no_comments).
Proof.
  induction pre as [|l pre IH]; intros output Hout H.
  - split; [done|]. split; [done|]. intros [?|Hex]; [done|].
    by apply Exists_nil in Hex.
  - cbn [foldl].
    assert (source_output (unbound output l)
            /\ (function_of (unbound output l) name = None
                \/ function_of (unbound output l) name = Some no_comments)
            /\ (function_of output name = Some no_comments \/ declares name l ->
                function_of (unbound output l) name = Some no_comments))
      as (H1 & H2 & H3).
    { unfold unbound. case_bool_decide as Hm.
      2: { split; [done|]. split; [done|]. intros [?|Hd]; [done|].
           by apply declares_matches in Hd. }
      destruct (group (search re_kbfun_name l) 1) as [n|] eqn:Hn.
      2: { split; [done|]. split; [done|]. intros [?|Hd]; [done|].
           unfold declares in Hd. congruence. }
      split.
      { apply source_output_merge; [done|by eapply kbfun_name_prefix|].
        apply comments_shape_empty. }
      destruct (decide (n = name)) as [->|Hne].
      - rewrite function_of_merge_empty by done. tauto.
      - rewrite function_of_merge_other by done. split; [done|].
        intros [?|Hd]; [done|]. unfold declares in Hd. congruence. }
    destruct (IH _ H1 H2) as (IH1 & IH2 & IH3).
    split; [done|]. split; [done|]. intros [Hs|Hex]; apply IH3.
    + left. apply H3. by left.
    + apply Exists_cons in Hex as [Hd|Hex]; [|by right].
      left. apply H3. by right.
Qed.

(** The scan of a file in which every declaration of [name] is before the
    first comment *)
Lemma scan_file_unbound name f output out :
  Forall (fun l => ~ declares name l) (from_comment f) ->
  source_output output ->
  function_of output name = None \/ function_of output name = Some no_comments ->
  scan (length f) f "" output = Ok out ->
  source_output out
  /\ (function_of out name = None \/ function_of out name = Some no_comments)
  /\ (function_of output name = Some no_comments
      \/ Exists (declares name) (before_comment f) ->
      function_of out name = Some no_comments).
Proof.
  intros Hf Hout H.
  destruct (before_from_comment f) as [Hsplit Hpre].
  rewrite Hsplit at 1 2. rewrite length_app, scan_unbound by done.
  destruct (foldl_unbound_function name (before_comment f) output Hout H)
    as (H1 & H2 & H3).
  intros Hscan. apply (scan_other name) in Hscan as [H4 H5]; [|done|done].
  rewrite H5. done.
Qed.

Lemma scan_files_unbound name files : forall output out,
  Forall (fun file => last_two file.1 = ".c" ->
            Forall (fun l => ~ declares name l) (from_comment file.2)) files ->
  source_output output ->
  function_of output name = None \/ function_of output name = Some no_comments ->
  scan_files files output = Ok out ->
  (function_of out name = None \/ function_of out name = Some no_comments)
  /\ (function_of output name = Some no_comments
      \/ Exists (fun file => last_two file.1 = ".c"
                   /\ Exists (declares name) (before_comment file.2)) files ->
      function_of out name = Some no_comments).
Proof.
  induction files as [|[path f] files IH]; intros output out Hfiles Hout H;
    cbn [scan_files].
  - intros [= <-]. split; [done|]. intros [?|Hex]; [done|].
    by apply Exists_nil in Hex.
  - apply Forall_cons in Hfiles as [Hf Hfiles]. cbn [fst snd] in Hf.
    case_bool_decide as Hc.
    + intros Hscan. destruct (IH _ _ Hfiles Hout H Hscan) as [IH1 IH2].
      split; [done|]. intros [Hs|Hex]; apply IH2; [by left|].
      apply Exists_cons in Hex as [[Hc' _]|Hex]; [done|by right].
    + destruct (scan (length f) f "" output) as [output'|] eqn:E; [|done].
      cbn [mbind result_bind]. intros Hscan.
      destruct (scan_file_unbound name f output output' (Hf Hc) Hout H E)
        as (H1 & H2 & H3).
      destruct (IH _ _ Hfiles H1 H2 Hscan) as [IH1 IH2].
      split; [done|]. intros [Hs|Hex]; apply IH2.
      * left. apply H3. by left.
      * apply Exists_cons in Hex as [[_ Hd]|Hex]; [|by right].
        left. apply H3. by right.
Qed.

Lemma comments_of_no_comments out name :
  function_of out name = Some no_comments ->
  comments_of out name = Ok (PyDict ∅).
Proof.
  destruct out as [| | | |d]; try done. cbn [function_of].
  unfold comments_of. cbn [subscript].
  destruct (d !! "keyboard-functions") as [[| | | |fs]|]; try done.
  cbn [mbind result_bind subscript]. intros ->.
  cbn [mbind result_bind]. unfold no_comments. cbn [subscript].
  by rewrite lookup_singleton_eq.
Qed.

(** C2, as amended.  The scan of a file keeps the text of the comment
    block that it has read last, which is empty at the start of every file
    and is not cleared by a declaration.
    - From any state of the scan, once a comment block has been read, a
      declaration that follows it with no other block in between, whatever
      lies in between, other declarations included, merges into the output
      the record of its function with the comments of that block.
    - In every file of the tree, a declaration before which no comment has
      been opened in the file merges the record of its function with the
      comments of an empty block, an empty mapping, and the scan goes on
      after it.
    - Whenever [parse_source_code] returns for a tree in which every
      declaration of a function is before the first comment of its file,
      and there is such a declaration, the output has the function, with
      the empty mapping as its comments. *)
Theorem comment_binding :
  (forall opener body closer mid l post parsed comments output fuel,
     strip opener = "/*" -> Forall (fun l => strip l <> "*/") body ->
     strip closer = "*/" ->
     parse_comments (join (map comment_line (opener :: body))) = Ok parsed ->
     Forall (fun l => strip l <> "/*") mid ->
     is_Some (search re_kbfun l) ->
     exists name,
       declares name l
       /\ scan (S (length mid + S fuel))
            (opener :: body ++ closer :: mid ++ l :: post) comments output
          = scan fuel post (join (map comment_line (opener :: body)))
              (dict_merge (foldl (bound parsed) output mid)
                 (function_comments name parsed)))
  /\ (forall before path pre l post after,
        last_two path = ".c" ->
        Forall (fun l => strip l <> "/*") pre ->
        is_Some (search re_kbfun l) ->
        exists name,
          declares name l
          /\ parse_source_code
               (before ++ (path, (pre ++ l :: post)%list) :: after)
             = (output ← parse_source_code before;
                output ← scan (length post) post ""
                           (dict_merge (foldl unbound output pre)
                              (function_comments name (PyDict ∅)));
                scan_files after output))
  /\ (forall files name out,
        parse_source_code files = Ok out ->
        Forall (fun file => last_two file.1 = ".c" ->
                  Forall (fun l => ~ declares name l) (from_comment file.2))
          files ->
        Exists (fun file => last_two file.1 = ".c"
                  /\ Exists (declares name) (before_comment file.2)) files ->
        comments_of out name = Ok (PyDict ∅)).
Proof.
  split; [|split].
  - intros opener body closer mid l post parsed comments output fuel
      Ho Hbody Hc Hparsed Hmid Hl.
    destruct (kbfun_has_name l Hl) as [name Hname].
    exists name. split; [done|]. cbn [scan].
    rewrite bool_decide_eq_true_2 by done. unfold read_comments.
    rewrite read_comments_from_block by (done || by rewrite Ho).
    cbn [mbind result_bind]. rewrite append_nil.
    rewrite (scan_bound _ parsed) by done. cbn [scan].
    rewrite bool_decide_eq_false_2 by by apply kbfun_not_opening.
    rewrite bool_decide_eq_true_2 by done.
    by rewrite (parse_bound _ _ _ parsed name Hparsed Hname).
  - intros before path pre l post after Hpath Hpre Hl.
    destruct (kbfun_has_name l Hl) as [name Hname].
    exists name. split; [done|]. unfold parse_source_code.
    rewrite scan_files_app.
    destruct (scan_files before (PyDict ∅)) as [output|]; [|done].
    cbn [mbind result_bind scan_files].
    rewrite bool_decide_eq_false_2 by (by intros ?).
    replace (length (pre ++ l :: post))
      with (length pre + S (length post))%nat
      by (rewrite length_app; reflexivity).
    rewrite scan_unbound by done. cbn [scan].
    rewrite bool_decide_eq_false_2 by by apply kbfun_not_opening.
    rewrite bool_decide_eq_true_2 by done.
    by rewrite (parse_unbound _ _ name Hname).
  - intros files name out Hout Hfiles Hex.
    apply comments_of_no_comments.
    destruct (scan_files_unbound name files (PyDict ∅) out Hfiles
                source_output_empty (or_introl eq_refl) Hout) as [_ H].
    apply H. by right.
Qed.

(** A block bound to the second declaration after it; a declaration
    before any comment in the second file of a tree; and the output for a
    function that is only declared before the first comment of its file *)
Lemma comment_binding_example :
  (exists name,
     declares name (line "void kbfun_b(void) {")
     /\ scan (S (length [line "void kbfun_a(void) {"; line "}"; line ""] + 1))
          (line "/*"
             :: [line " * [name]"; line " *   Foo"] ++ line " */"
             :: [line "void kbfun_a(void) {"; line "}"; line ""]
             ++ line "void kbfun_b(void) {" :: [line "}"])
          "" (PyDict ∅)
        = scan 0 [line "}"]
            (join (map comment_line
                     (line "/*" :: [line " * [name]"; line " *   Foo"])))
            (dict_merge
               (foldl (bound (PyDict {[ "name" := PyStr "Foo" ]})) (PyDict ∅)
                  [line "void kbfun_a(void) {"; line "}"; line ""])
               (function_comments name (PyDict {[ "name" := PyStr "Foo" ]}))))
  /\ (exists name,
        declares name (line "void kbfun_b(void);")
        /\ parse_source_code
             ([("src/a.c",
                map line ["/*"; " * [name]"; " *   Foo"; " */";
                          "void kbfun_a(void) {"; "}"])]
              ++ ("src/b.c",
                  ([line "#include <stdint.h>"]
                   ++ line "void kbfun_b(void);" :: [line ""])%list)
              :: [("src/c.c", [line "void kbfun_c(void) {"; line "}"])])
           = (output ← parse_source_code
                         [("src/a.c",
                           map line ["/*"; " * [name]"; " *   Foo"; " */";
                                     "void kbfun_a(void) {"; "}"])];
              output ← scan (length [line ""]) [line ""] ""
                         (dict_merge
                            (foldl unbound output [line "#include <stdint.h>"])
                            (function_comments name (PyDict ∅)));
              scan_files
                [("src/c.c", [line "void kbfun_c(void) {"; line "}"])]
                output))
  /\ comments_of
       (PyDict
          {[ "keyboard-functions" :=
               PyDict
                 {[ "kbfun_a" :=
                      PyDict {[ "comments" :=
                                  PyDict {[ "name" := PyStr "Foo" ]} ]};
                    "kbfun_b" := PyDict {[ "comments" := PyDict ∅ ]};
                    "kbfun_c" :=
                      PyDict {[ "comments" :=
                                  PyDict {[ "name" := PyStr "Bar" ]} ]} ]} ]})
       "kbfun_b"
     = Ok (PyDict ∅).
Proof.
  destruct comment_binding as (Ha & Hb & Hc). split; [|split].
  - apply (Ha (line "/*") [line " * [name]"; line " *   Foo"] (line " */")
             [line "void kbfun_a(void) {"; line "}"; line ""]
             (line "void kbfun_b(void) {") [line "}"]
             (PyDict {[ "name" := PyStr "Foo" ]}) "" (PyDict ∅) O).
    + reflexivity.
    + repeat constructor; vm_compute; congruence.
    + reflexivity.
    + vm_compute. reflexivity.
    + repeat constructor; vm_compute; congruence.
    + vm_compute. eauto.
  - apply (Hb [("src/a.c",
                map line ["/*"; " * [name]"; " *   Foo"; " */";
                          "void kbfun_a(void) {"; "}"])]
             "src/b.c" [line "#include <stdint.h>"]
             (line "void kbfun_b(void);") [line ""]
             [("src/c.c", [line "void kbfun_c(void) {"; line "}"])]).
    + reflexivity.
    + repeat constructor; vm_compute; congruence.
    + vm_compute. eauto.
  - apply (Hc [("src/a.c",
                map line ["/*"; " * [name]"; " *   Foo"; " */";
                          "void kbfun_a(void) {"; "}"]);
               ("src/b.c",
                map line ["void kbfun_b(void) {"; "}"; "/*"; " * [name]";
                          " *   Bar"; " */"; "void kbfun_c(void) {"; "}"])]).
    + vm_compute. reflexivity.
    + apply Forall_cons_2;
        [intros _|apply Forall_cons_2; [intros _|apply Forall_nil_2]];
        match goal with
        | |- Forall ?P ?x =>
            let y := eval vm_compute in x in change (Forall P y)
        end;
        repeat (apply Forall_cons_2;
                [intros H; vm_compute in H; discriminate H|]);
        apply Forall_nil_2.
    + apply Exists_cons_tl, Exists_cons_hd. split; [reflexivity|].
      apply Exists_cons_hd. vm_compute. reflexivity.
Defined.

End Binding.
